(** * Startup orchestration of [anthill.app.App]

    A shallow embedding of [src/anthill/app.py]: identity resolution in
    [App.__init__], the subscription merge and include-filter of
    [App._start], and task dispatch in [App._start_tasks] and [App.start].

    Python objects that the code mutates through several names (the
    [SUBSCRIPTIONS] dict) live in an explicit heap; everything the code does
    to its collaborators (event loop, threads, bus client, HTTP server,
    [time.sleep]) is recorded in an event trace.  Exceptions do not roll the
    state back, exactly as in Python. *)

From Stdlib Require Import ZArith List String Ascii Lia.
From stdpp Require Import base gmap strings list pretty.

Open Scope string_scope.
Open Scope Z_scope.
Open Scope list_scope.

(** ** Python strings *)

Module PyStr.

(** [needle in hay] on two [str] values: substring containment. *)
Fixpoint contains (needle hay : string) : bool :=
  if String.prefix needle hay then true
  else match hay with
       | EmptyString => false
       | String _ hay' => contains needle hay'
       end.

(** Specification-level substring relation, independent of [contains]. *)
Definition is_substring_of (needle hay : string) : Prop :=
  ∃ before after, hay = before +:+ needle +:+ after.

(** [sep.join(parts)] *)
Definition join (sep : string) (parts : list string) : string :=
  String.concat sep parts.

(** [str(n)] for an [int]. *)
Definition str (n : Z) : string := pretty n.

End PyStr.

(** ** Values *)

(** A Python callable, as far as this module looks at it: its identity and
    the answer of [asyncio.iscoroutinefunction]. *)
Record callable := Callable {
  fn_name : string;
  iscoroutinefunction : bool
}.

(** Exceptions this module raises or lets through. *)
Inductive exn :=
| InitializingTaskError (msg : string)
| InitializingIntevalTaskError (msg : string)
| InitializingEventManagerError (msg : string)
| KeyError (key : string)
| AttributeError (attr : string)
| ValueError (msg : string)
| CollaboratorError (msg : string).

(** A dict [topic -> handler]. *)
Abbreviation topic_dict := (gmap string callable).

(** The items of a dict [interval -> list of tasks], in insertion order. *)
Abbreviation interval_dict := (list (Z * list callable)).

(** Heap addresses of dict objects. *)
Abbreviation loc := nat.

(** ** The [nats_config] dict built by [__init__] *)
Record nats_config_t := NatsConfig {
  cfg_host : string;
  cfg_port : Z;
  cfg_client_id : string;
  cfg_listen_topics_callbacks : option loc;
  cfg_publish_topics : list string;
  cfg_allow_reconnect : bool;
  cfg_queue : string;
  cfg_max_reconnect_attempts : Z;
  cfg_reconnecting_time_wait : Z;
  cfg_client_strategy : string;
  cfg_num_of_queues : option Z
}.

Definition set_listen_topics_callbacks (l : loc) (c : nats_config_t) : nats_config_t :=
  {| cfg_host := cfg_host c;
     cfg_port := cfg_port c;
     cfg_client_id := cfg_client_id c;
     cfg_listen_topics_callbacks := Some l;
     cfg_publish_topics := cfg_publish_topics c;
     cfg_allow_reconnect := cfg_allow_reconnect c;
     cfg_queue := cfg_queue c;
     cfg_max_reconnect_attempts := cfg_max_reconnect_attempts c;
     cfg_reconnecting_time_wait := cfg_reconnecting_time_wait c;
     cfg_client_strategy := cfg_client_strategy c;
     cfg_num_of_queues := cfg_num_of_queues c |}.

(** The HTTP server object built by [__init__] when [web_server] is truthy. *)
Inductive HTTPServer :=
| HTTPServer_of_app (web_app : string)
| HTTPServer_of_addr (web_host : option string) (web_port : option Z).

(** ** The [App] object ([self]) *)
Record App := MkApp {
  SUBSCRIPTIONS : loc;                 (* registry filled by the listen decorator *)
  TASKS : list callable;               (* registry filled by the task decorator *)
  INTERVAL_TASKS : interval_dict;      (* registry filled by the interval decorator *)
  nats_config : nats_config_t;
  tasks : list callable;               (* the [tasks] constructor argument *)
  interval_tasks : option interval_dict;   (* unset until [_start] *)
  app_strategy : string;
  listen_topic_only_if_include : option (list string);
  subscribe_topics_and_callbacks : loc;
  http_server : option HTTPServer
}.

(** ** The world outside [self] *)

(** A task object living on the asyncio event loop. *)
Record aio_task := AioTask {
  task_id : nat;
  task_coro : callable
}.

Inductive event :=
| Sleep (seconds : Z)                              (* time.sleep(seconds) *)
| NatsInit (cfg : nats_config_t) (listen : topic_dict)
                                                   (* NATSClient.__init__(self, **cfg) *)
| CreateTask (t : aio_task)                        (* loop.create_task(coro()) *)
| StartThread (target : option callable)           (* start_thread(target) *)
| StartServer                                      (* self.http_server.start_server() *)
| RunUntilComplete (awaited : list aio_task).      (* loop.run_until_complete(gather( *tasks)) *)

Record world := MkWorld {
  environ : gmap string string;        (* os.environ *)
  rand_source : nat → Z;               (* raw draws of the random module *)
  rand_next : nat;
  heap : gmap loc topic_dict;          (* dict objects *)
  loop_tasks : list aio_task;          (* tasks registered on the event loop *)
  next_task_id : nat;
  trace : list event                   (* what has been done so far, oldest first *)
}.

Record state := MkState {
  self : App;
  env : world
}.

Definition with_environ (f : gmap string string → gmap string string) (w : world) : world :=
  MkWorld (f (environ w)) (rand_source w) (rand_next w) (heap w)
          (loop_tasks w) (next_task_id w) (trace w).

Definition with_rand_next (n : nat) (w : world) : world :=
  MkWorld (environ w) (rand_source w) n (heap w)
          (loop_tasks w) (next_task_id w) (trace w).

Definition with_heap (f : gmap loc topic_dict → gmap loc topic_dict) (w : world) : world :=
  MkWorld (environ w) (rand_source w) (rand_next w) (f (heap w))
          (loop_tasks w) (next_task_id w) (trace w).

Definition with_new_task (t : aio_task) (w : world) : world :=
  MkWorld (environ w) (rand_source w) (rand_next w) (heap w)
          (loop_tasks w ++ [t]) (S (next_task_id w)) (trace w).

Definition with_event (e : event) (w : world) : world :=
  MkWorld (environ w) (rand_source w) (rand_next w) (heap w)
          (loop_tasks w) (next_task_id w) (trace w ++ [e]).

Definition with_self (f : App → App) (s : state) : state :=
  MkState (f (self s)) (env s).

Definition with_env (f : world → world) (s : state) : state :=
  MkState (self s) (f (env s)).

(** ** A state and exception monad *)

Inductive result (A : Type) :=
| Ok (a : A)
| Raise (e : exn).
Arguments Ok {A} a.
Arguments Raise {A} e.

Definition M (S A : Type) : Type := S → result A * S.

Definition ret {S A} (a : A) : M S A := λ s, (Ok a, s).

Definition bind {S A B} (m : M S A) (k : A → M S B) : M S B :=
  λ s, match m s with
       | (Ok a, s') => k a s'
       | (Raise e, s') => (Raise e, s')
       end.

Definition raise {S A} (e : exn) : M S A := λ s, (Raise e, s).

Definition get {S} : M S S := λ s, (Ok s, s).

Definition modify {S} (f : S → S) : M S unit := λ s, (Ok tt, f s).

Declare Scope py_scope.
Delimit Scope py_scope with py.
Notation "x <- m ;; k" := (bind m (λ x, k))
  (at level 100, m at next level, right associativity) : py_scope.
Notation "m ;;; k" := (bind m (λ _, k))
  (at level 100, right associativity) : py_scope.
Open Scope py_scope.

(** [for x in xs: body(x)] *)
Fixpoint for_each {S A} (body : A → M S unit) (xs : list A) : M S unit :=
  match xs with
  | [] => ret tt
  | x :: xs' => body x ;;; for_each body xs'
  end.

(** Run a computation on the world from a method of [self]. *)
Definition in_world {A} (m : M world A) : M state A :=
  λ s, let '(r, w) := m (env s) in (r, MkState (self s) w).

(** ** Primitive operations of the collaborators *)

(** [random.randint(a, b)]: the next raw draw, brought into [a..b]. *)
Definition randint (a b : Z) : M world Z :=
  λ w, (Ok (a + rand_source w (rand_next w) `mod` (b - a + 1)),
        with_rand_next (S (rand_next w)) w).

(** [os.environ[key] = value]; a NUL byte in the value is refused. *)
Definition environ_set (key value : string) : M world unit :=
  if PyStr.contains (String "000"%char EmptyString) value
  then raise (ValueError "embedded null byte")
  else modify (with_environ (insert key value)).

(** The dict stored at [l]. *)
Definition deref (l : loc) (w : world) : topic_dict :=
  default ∅ (heap w !! l).

(** [d.update(other)] for the dict objects at [l] and [other]. *)
Definition dict_update (l other : loc) : M world unit :=
  modify (λ w, with_heap (insert l (deref other w ∪ deref l w)) w).

(** [d.copy()], read as the list of its keys for iteration.  The keys come
    in the order of the map, not in Python's insertion order; the loop that
    walks them gives the same dict for every order ([prune_lookup]). *)
Definition dict_copy_keys (l : loc) : M world (list string) :=
  λ w, (Ok (map_to_list (deref l w)).*1, w).

(** [del d[key]] *)
Definition dict_del (l : loc) (key : string) : M world unit :=
  λ w, match deref l w !! key with
       | Some _ => (Ok tt, with_heap (insert l (delete key (deref l w))) w)
       | None => (Raise (KeyError key), w)
       end.

Definition emit (e : event) : M state unit := modify (with_env (with_event e)).

(** [asyncio.all_tasks(loop)]: a fresh set holding the tasks of the loop
    at the time of the call. *)
Definition all_tasks : M state (list aio_task) :=
  λ s, (Ok (loop_tasks (env s)), s).

(** [loop.create_task(coro())] *)
Definition create_task (coro : callable) : M state unit :=
  λ s, let t := AioTask (next_task_id (env s)) coro in
       (Ok tt, with_env (λ w, with_event (CreateTask t) (with_new_task t w)) s).

(** [start_thread(target)] from [utils.helper]. *)
Definition start_thread (target : option callable) : M state unit :=
  emit (StartThread target).

(** [time.sleep(seconds)] *)
Definition sleep (seconds : Z) : M state unit := emit (Sleep seconds).

(** [self.http_server.start_server()] *)
Definition start_server : M state unit := emit StartServer.

(** [loop.run_until_complete(asyncio.gather( *tasks))] *)
Definition run_until_complete_gather (awaited : list aio_task) : M state unit :=
  emit (RunUntilComplete awaited).

(** ** Field updates on [self] *)

Definition set_nats_config (c : nats_config_t) (a : App) : App :=
  MkApp (SUBSCRIPTIONS a) (TASKS a) (INTERVAL_TASKS a) c (tasks a)
        (interval_tasks a) (app_strategy a) (listen_topic_only_if_include a)
        (subscribe_topics_and_callbacks a) (http_server a).

Definition set_tasks (ts : list callable) (a : App) : App :=
  MkApp (SUBSCRIPTIONS a) (TASKS a) (INTERVAL_TASKS a) (nats_config a) ts
        (interval_tasks a) (app_strategy a) (listen_topic_only_if_include a)
        (subscribe_topics_and_callbacks a) (http_server a).

Definition set_interval_tasks (d : interval_dict) (a : App) : App :=
  MkApp (SUBSCRIPTIONS a) (TASKS a) (INTERVAL_TASKS a) (nats_config a) (tasks a)
        (Some d) (app_strategy a) (listen_topic_only_if_include a)
        (subscribe_topics_and_callbacks a) (http_server a).

Definition get_self : M state App := λ s, (Ok (self s), s).

(** [try: body except InitializingEventManagerError as e: raise
    InitializingEventManagerError(prefix + str(e))] *)
Definition reraise_event_manager_error {S A} (body : M S A) : M S A :=
  λ s, match body s with
       | (Raise (InitializingEventManagerError msg), s') =>
           (Raise (InitializingEventManagerError
                     ("App.event_registrator critical error: " +:+ msg)), s')
       | other => other
       end.

(** ** [App._create_client_code_by_hostname] and [App.__init__] *)

Definition _create_client_code_by_hostname (name : string) : M world string :=
  host_token <- (w <- get;;
                 match environ w !! "HOSTNAME" with
                 | Some hostname => ret hostname
                 | None => n <- randint 1 1000000;;
                           ret ("non_docker_env_" +:+ PyStr.str n)
                 end);;
  n <- randint 1 1000000;;
  ret (PyStr.join "__" [name; host_token; PyStr.str n]).

(** Lines 72-75 of [__init__]: the client id the application runs under. *)
Definition resolve_client_id (service_name : string) (client_id : option string)
  : M world string :=
  match client_id with
  | None => _create_client_code_by_hostname service_name
  | Some given => ret given
  end.

(** The class-level registries an [App] object is born with (they come from
    the manager base classes and are filled by decorators). *)
Record registries := MkRegistries {
  reg_SUBSCRIPTIONS : loc;
  reg_TASKS : list callable;
  reg_INTERVAL_TASKS : interval_dict
}.

Record init_args := MkInitArgs {
  arg_host : string;
  arg_port : Z;
  arg_service_name : string;
  arg_client_id : option string;
  arg_tasks : list callable;
  arg_reconnect : bool;
  arg_max_reconnect_attempts : Z;
  arg_reconnecting_time_sleep : Z;
  arg_app_strategy : string;
  arg_num_of_queues : Z;
  arg_subscribe_topics_and_callbacks : loc;
  arg_publish_topics : list string;
  arg_allocation_quenue_group : string;
  arg_listen_topic_only_if_include : option (list string);
  arg_web_server : bool;
  arg_web_app : option string;
  arg_web_host : option string;
  arg_web_port : option Z
}.

(** [App.__init__]; the logger set-up (lines 96-106) touches nothing that
    the rest of this module reads and is left out. *)
Definition __init__ (reg : registries) (a : init_args) : M world App :=
  reraise_event_manager_error (
    client_id <- resolve_client_id (arg_service_name a) (arg_client_id a);;
    environ_set "CLIENT_ID" client_id;;;
    let nats_config :=
      {| cfg_host := arg_host a;
         cfg_port := arg_port a;
         cfg_client_id := client_id;
         cfg_listen_topics_callbacks := None;
         cfg_publish_topics := arg_publish_topics a;
         cfg_allow_reconnect := arg_reconnect a;
         cfg_queue := arg_allocation_quenue_group a;
         cfg_max_reconnect_attempts := arg_max_reconnect_attempts a;
         cfg_reconnecting_time_wait := arg_reconnecting_time_sleep a;
         cfg_client_strategy := arg_app_strategy a;
         cfg_num_of_queues :=
           if String.eqb (arg_app_strategy a) "sync"
           then Some (arg_num_of_queues a) else None |} in
    let http_server :=
      if arg_web_server a then
        match arg_web_app a with
        | Some web_app => Some (HTTPServer_of_app web_app)
        | None => Some (HTTPServer_of_addr (arg_web_host a) (arg_web_port a))
        end
      else None in
    ret {| SUBSCRIPTIONS := reg_SUBSCRIPTIONS reg;
           TASKS := reg_TASKS reg;
           INTERVAL_TASKS := reg_INTERVAL_TASKS reg;
           nats_config := nats_config;
           tasks := arg_tasks a;
           interval_tasks := None;
           app_strategy := arg_app_strategy a;
           listen_topic_only_if_include := arg_listen_topic_only_if_include a;
           subscribe_topics_and_callbacks := arg_subscribe_topics_and_callbacks a;
           http_server := http_server |}).

(** ** [App._start_tasks], [App._start] and [App.start] *)

(** Lines 154-158 of [_start]: the [success] flag of one topic. *)
Fixpoint topic_included (includes : list string) (topic : string) : bool :=
  match includes with
  | [] => false
  | topic_include :: rest =>
      if PyStr.contains topic_include topic then true
      else topic_included rest topic
  end.

(** Lines 183-188: one pass over the interval dict under asyncio. *)
Definition asyncio_interval_loop (d : interval_dict) : M state unit :=
  for_each (λ item : Z * list callable,
    for_each (λ coro : callable,
      if negb (iscoroutinefunction coro)
      then raise (InitializingIntevalTaskError
                    "For asyncio app_strategy only coroutine interval tasks allowed")
      else create_task coro) (snd item)) d.

(** Lines 198-203: one pass over the interval dict under sync. *)
Definition sync_interval_loop (d : interval_dict) : M state unit :=
  for_each (λ item : Z * list callable,
    for_each (λ task : callable,
      if iscoroutinefunction task
      then raise (InitializingIntevalTaskError
                    "For sync app_strategy coroutine interval_task doesn't allowed")
      else start_thread (Some task)) (snd item)) d.

(** [self.interval_tasks] *)
Definition read_interval_tasks : M state interval_dict :=
  app <- get_self;;
  match interval_tasks app with
  | Some d => ret d
  | None => raise (AttributeError "interval_tasks")
  end.

Definition start_server_if_any : M state unit :=
  app <- get_self;;
  match http_server app with
  | Some _ => start_server
  | None => ret tt
  end.

Definition _start_tasks : M state unit :=
  app <- get_self;;
  if String.eqb (app_strategy app) "asyncio" then
    awaited <- all_tasks;;
    for_each (λ coro : callable,
      if negb (iscoroutinefunction coro)
      then raise (InitializingTaskError
                    "For asyncio app_strategy only coroutine tasks allowed")
      else create_task coro) (tasks app);;;
    d <- read_interval_tasks;;
    asyncio_interval_loop d;;;
    start_server_if_any;;;
    run_until_complete_gather awaited
  else if String.eqb (app_strategy app) "sync" then
    sleep 1;;;
    for_each (λ task : callable,
      if iscoroutinefunction task
      then raise (InitializingIntevalTaskError
                    "For sync app_strategy coroutine task doesn't allowed")
      else start_thread (Some task)) (tasks app);;;
    d <- read_interval_tasks;;
    sync_interval_loop d;;;
    start_server_if_any
  else ret tt.

Section BusClient.

(** The bus client is not part of this module.  Its constructor is given
    the finished config and the dict of handlers; it either fails or
    leaves some units of its own on the event loop. *)
Variable NATSClient_connect : nats_config_t → topic_dict → result (list callable).

Definition register_bus_units (units : list callable) (w : world) : world :=
  foldl (λ w' coro, with_new_task (AioTask (next_task_id w') coro) w') w units.

(** [NATSClient.__init__(self, **self.nats_config)] *)
Definition NATSClient__init__ : M state unit :=
  λ s,
    let cfg := nats_config (self s) in
    let listen := match cfg_listen_topics_callbacks cfg with
                  | Some l => deref l (env s)
                  | None => ∅
                  end in
    let s1 := with_env (with_event (NatsInit cfg listen)) s in
    match NATSClient_connect cfg listen with
    | Ok units => (Ok tt, with_env (register_bus_units units) s1)
    | Raise e => (Raise e, s1)
    end.

(** Lines 149-163 of [_start]: the [try] block.  The local name
    [topics_and_callbacks] is bound to the object [self.SUBSCRIPTIONS]
    itself, not to a copy of it. *)
Definition _start_subscriptions : M state loc :=
  reraise_event_manager_error (
    app <- get_self;;
    let topics_and_callbacks := SUBSCRIPTIONS app in
    in_world (dict_update topics_and_callbacks (subscribe_topics_and_callbacks app));;;
    match listen_topic_only_if_include app with
    | Some includes =>
        keys <- in_world (dict_copy_keys topics_and_callbacks);;
        for_each (λ topic : string,
          let success := topic_included includes topic in
          if success then ret tt
          else in_world (dict_del topics_and_callbacks topic)) keys
    | None => ret tt
    end;;;
    ret topics_and_callbacks).

Definition _start : M state unit :=
  topics_and_callbacks <- _start_subscriptions;;
  modify (with_self (λ a,
    set_nats_config
      (set_listen_topics_callbacks topics_and_callbacks (nats_config a)) a));;;
  NATSClient__init__;;;
  modify (with_self (λ a, set_tasks (tasks a ++ TASKS a) a));;;
  modify (with_self (λ a, set_interval_tasks (INTERVAL_TASKS a) a));;;
  _start_tasks.

(** [App.start].  [_start] returns [None]; in the second branch the
    argument [self._start()] is evaluated before [start_thread] is entered. *)
Definition start : M state unit :=
  app <- get_self;;
  match http_server app with
  | Some _ => _start
  | None =>
      returned <- _start;;
      let target : option callable := match returned with tt => None end in
      start_thread target
  end.

End BusClient.

(** ** What a finished run looks like *)

(** The dict handed to the bus client as [listen_topics_callbacks]. *)
Definition final_subscriptions (s : state) : option topic_dict :=
  match cfg_listen_topics_callbacks (nats_config (self s)) with
  | Some l => Some (deref l (env s))
  | None => None
  end.

(** The dict object the [SUBSCRIPTIONS] registry refers to. *)
Definition static_registry (s : state) : topic_dict :=
  deref (SUBSCRIPTIONS (self s)) (env s).

(** The dict object passed as [subscribe_topics_and_callbacks]. *)
Definition dynamic_bindings (s : state) : topic_dict :=
  deref (subscribe_topics_and_callbacks (self s)) (env s).

(** The units handed to a scheduler so far: tasks put on the event loop
    and threads started, in order. *)
Fixpoint scheduled (tr : list event) : list callable :=
  match tr with
  | [] => []
  | CreateTask t :: tr' => task_coro t :: scheduled tr'
  | StartThread (Some task) :: tr' => task :: scheduled tr'
  | _ :: tr' => scheduled tr'
  end.

(** A task whose execution mode does not fit the strategy. *)
Definition mismatches (strategy : string) (task : callable) : bool :=
  if String.eqb strategy "asyncio" then negb (iscoroutinefunction task)
  else if String.eqb strategy "sync" then iscoroutinefunction task
  else false.

Definition is_configuration_error (e : exn) : bool :=
  match e with
  | InitializingTaskError _ | InitializingIntevalTaskError _ => true
  | _ => false
  end.

(** One-shot tasks, then interval tasks in dict order and list order. *)
Definition dispatch_order (one_shot : list callable) (d : interval_dict) : list callable :=
  one_shot ++ concat (map snd d).

(** ** Closed forms used to describe runs *)

(** The world after the events [es] have happened. *)
Definition with_events (es : list event) (w : world) : world :=
  MkWorld (environ w) (rand_source w) (rand_next w) (heap w)
          (loop_tasks w) (next_task_id w) (trace w ++ es).

(** The world after [loop.create_task] has been called on each of [coros]. *)
Definition create_all (coros : list callable) (w : world) : world :=
  foldl (λ w' coro,
           let t := AioTask (next_task_id w') coro in
           with_event (CreateTask t) (with_new_task t w')) w coros.

Definition thread_starts (ts : list callable) : list event :=
  map (λ task, StartThread (Some task)) ts.

(** The dict left by the deletion loop of [_start] run over [keys]. *)
Definition prune (includes : list string) (keys : list string) (d : topic_dict)
  : topic_dict :=
  foldl (λ d' topic, if topic_included includes topic then d' else delete topic d')
        d keys.

(** Whether a topic survives the include-filter, a missing filter keeping
    every topic. *)
Definition topic_passes (filter : option (list string)) (topic : string) : bool :=
  match filter with
  | None => true
  | Some includes => topic_included includes topic
  end.

(** The longest prefix of tasks that fit the strategy. *)
Fixpoint ok_prefix (bad : callable → bool) (ts : list callable) : list callable :=
  match ts with
  | [] => []
  | t :: ts' => if bad t then [] else t :: ok_prefix bad ts'
  end.

(** The bus client connects whatever it is given. *)
Definition bus_connects
  (connect : nats_config_t → topic_dict → result (list callable)) : Prop :=
  ∀ cfg listen, ∃ units, connect cfg listen = Ok units.

(** The dict [SUBSCRIPTIONS] refers to once the [try] block of [_start] is
    through. *)
Definition subscriptions_after (s : state) : topic_dict :=
  let merged := dynamic_bindings s ∪ static_registry s in
  match listen_topic_only_if_include (self s) with
  | Some includes => prune includes (map_to_list merged).*1 merged
  | None => merged
  end.

(** A computation [m] never leaves the relation [R] between the state it
    starts from and the state it ends in, whether it returns or raises. *)
Definition respects {A} (R : state → state → Prop) (m : M state A) : Prop :=
  ∀ s, R s (snd (m s)).

(** Only the event loop and the trace may differ. *)
Definition same_objects (s s' : state) : Prop :=
  self s' = self s ∧ heap (env s') = heap (env s).

(** The dict objects and everything of [self] but [tasks] and
    [interval_tasks] are the same. *)
Definition same_registries (s s' : state) : Prop :=
  heap (env s') = heap (env s)
  ∧ nats_config (self s') = nats_config (self s)
  ∧ SUBSCRIPTIONS (self s') = SUBSCRIPTIONS (self s)
  ∧ TASKS (self s') = TASKS (self s)
  ∧ INTERVAL_TASKS (self s') = INTERVAL_TASKS (self s).

(** What starting the HTTP server, if there is one, adds to the trace. *)
Definition server_events (a : App) : list event :=
  match http_server a with
  | Some _ => [StartServer]
  | None => []
  end.

(** The two checks of [_start_tasks], one per strategy. *)
Definition not_coroutine (task : callable) : bool := negb (iscoroutinefunction task).

(** ** Concrete applications *)

Module Examples.

Definition ping : callable := Callable "ping" true.
Definition crunch : callable := Callable "crunch" false.
Definition flush : callable := Callable "flush" false.
Definition bus_reader : callable := Callable "nats_reader" true.

Definition config (strategy : string) : nats_config_t :=
  {| cfg_host := "127.0.0.1";
     cfg_port := 4222;
     cfg_client_id := "svc__host__7";
     cfg_listen_topics_callbacks := None;
     cfg_publish_topics := [];
     cfg_allow_reconnect := false;
     cfg_queue := "";
     cfg_max_reconnect_attempts := 60;
     cfg_reconnecting_time_wait := 2;
     cfg_client_strategy := strategy;
     cfg_num_of_queues := if String.eqb strategy "sync" then Some 1 else None |}.

(** An application whose registries live at address 0 (static) and 1
    (caller-supplied). *)
Definition app (strategy : string) (caller_tasks static_tasks : list callable)
  (intervals : interval_dict) (include : option (list string))
  (server : option HTTPServer) : App :=
  {| SUBSCRIPTIONS := 0%nat;
     TASKS := static_tasks;
     INTERVAL_TASKS := intervals;
     nats_config := config strategy;
     tasks := caller_tasks;
     interval_tasks := None;
     app_strategy := strategy;
     listen_topic_only_if_include := include;
     subscribe_topics_and_callbacks := 1%nat;
     http_server := server |}.

Definition world_of (static dynamic : topic_dict) (on_loop : list aio_task) : world :=
  {| environ := ∅;
     rand_source := λ _, 0;
     rand_next := 0%nat;
     heap := <[0%nat := static]> (<[1%nat := dynamic]> ∅);
     loop_tasks := on_loop;
     next_task_id := length on_loop;
     trace := [] |}.

(** A bus client that connects and schedules nothing of its own. *)
Definition quiet_bus : nats_config_t → topic_dict → result (list callable) :=
  λ _ _, Ok [].

(** A state on the doorstep of [_start_tasks]. *)
Definition ready (strategy : string) (one_shot : list callable)
  (intervals : interval_dict) (on_loop : list aio_task) : state :=
  MkState (set_interval_tasks intervals (app strategy one_shot [] intervals None None))
          (world_of ∅ ∅ on_loop).

(** asyncio, a coroutine first and a blocking function second. *)
Definition late_offender : state := ready "asyncio" [ping; crunch] [] [].

(** sync, a blocking function first and a coroutine second. *)
Definition late_offender_sync : state := ready "sync" [crunch; ping] [] [].

(** sync, one blocking one-shot task, one blocking interval task. *)
Definition threaded : state := ready "sync" [crunch] [(5, [flush])] [].

(** asyncio, one coroutine task, one unit of the bus client already on the loop. *)
Definition with_bus_unit : state := ready "asyncio" [ping] [] [AioTask 0 bus_reader].

(** Handlers of the scenario in
    [tests/test_parameter_listen_topic_only_if_include.py]. *)
Definition on_start : callable := Callable "start" true.
Definition on_foo : callable := Callable "foo" true.
Definition on_bar : callable := Callable "bar" true.
Definition on_foo_override : callable := Callable "foo_override" true.

Definition declared : topic_dict :=
  <["start" := on_start]> (<["foo" := on_foo]> (<["bar" := on_bar]> ∅)).

(** The test application: three declared handlers, filter ["foo", "bar"]. *)
Definition filtered : state :=
  MkState (app "asyncio" [] [] [] (Some ["foo"; "bar"]) None)
          (world_of declared ∅ []).

(** No filter, a caller-supplied handler for a declared topic. *)
Definition colliding : state :=
  MkState (app "asyncio" [] [] [] None None)
          (world_of declared (<["foo" := on_foo_override]> ∅) []).

(** One declared task, one caller-supplied task. *)
Definition two_sources : state :=
  MkState (app "sync" [flush] [crunch] [(5, [crunch])] None None)
          (world_of ∅ ∅ []).

Definition some_args : init_args :=
  {| arg_host := "127.0.0.1";
     arg_port := 4222;
     arg_service_name := "svc";
     arg_client_id := None;
     arg_tasks := [flush];
     arg_reconnect := false;
     arg_max_reconnect_attempts := 60;
     arg_reconnecting_time_sleep := 2;
     arg_app_strategy := "sync";
     arg_num_of_queues := 1;
     arg_subscribe_topics_and_callbacks := 1%nat;
     arg_publish_topics := [];
     arg_allocation_quenue_group := "";
     arg_listen_topic_only_if_include := None;
     arg_web_server := false;
     arg_web_app := None;
     arg_web_host := None;
     arg_web_port := None |}.

(** A world with nothing in it, whose random source always draws 41. *)
Definition blank : world := MkWorld ∅ (λ _, 41) 0%nat ∅ [] 0%nat [].

Definition some_registries : registries :=
  MkRegistries 0%nat [crunch] [(5, [crunch])].

End Examples.

(** ** Closed forms for whole runs of [_start] *)

(** The task objects [loop.create_task] makes for [coros] when the next
    free task id is [n]. *)
Fixpoint new_tasks (n : nat) (coros : list callable) : list aio_task :=
  match coros with
  | [] => []
  | coro :: coros' => AioTask n coro :: new_tasks (S n) coros'
  end.


Definition is_nats_init (e : event) : bool :=
  match e with
  | NatsInit _ _ => true
  | _ => false
  end.

Definition is_dispatch_event (e : event) : bool := negb (is_nats_init e).

(** The trace has grown by events of dispatch only. *)
Definition dispatch_only (s s' : state) : Prop :=
  ∃ es, trace (env s') = trace (env s) ++ es
        ∧ forallb is_dispatch_event es = true.

(** The config the bus client is constructed with. *)
Definition config_at_connect (s : state) : nats_config_t :=
  set_listen_topics_callbacks (SUBSCRIPTIONS (self s)) (nats_config (self s)).

(** [self] and the world when the bus client's constructor is entered. *)
Definition state_at_connect (s : state) : state :=
  MkState (set_nats_config (config_at_connect s) (self s))
          (with_heap (insert (SUBSCRIPTIONS (self s)) (subscriptions_after s)) (env s)).

(** [self] once lines 171-172 have run. *)
Definition self_at_dispatch (s : state) : App :=
  set_interval_tasks (INTERVAL_TASKS (self s))
    (set_tasks (tasks (self s) ++ TASKS (self s))
       (set_nats_config (config_at_connect s) (self s))).

(** [self] and the world when [_start_tasks] is entered, the bus client
    having left [units] on the loop. *)
Definition state_at_dispatch (units : list callable) (s : state) : state :=
  MkState (self_at_dispatch s)
          (register_bus_units units
             (with_event (NatsInit (config_at_connect s) (subscriptions_after s))
                (env (state_at_connect s)))).

(** The NUL character as a string. *)
Definition NUL : string := String "000"%char EmptyString.

(** What [start] adds to the trace after [_start_tasks] has returned under
    the sync strategy: the HTTP server has been started by [_start_tasks]
    itself, and without a server [start] goes on to call [start_thread] on
    the [None] that [_start] returned. *)
Definition closing_events (a : App) : list event :=
  match http_server a with
  | Some _ => [StartServer]
  | None => [StartThread None]
  end.

(** The object [__init__] builds once the client id is known. *)
Definition constructed (reg : registries) (a : init_args) (client_id : string) : App :=
  {| SUBSCRIPTIONS := reg_SUBSCRIPTIONS reg;
     TASKS := reg_TASKS reg;
     INTERVAL_TASKS := reg_INTERVAL_TASKS reg;
     nats_config :=
       {| cfg_host := arg_host a;
          cfg_port := arg_port a;
          cfg_client_id := client_id;
          cfg_listen_topics_callbacks := None;
          cfg_publish_topics := arg_publish_topics a;
          cfg_allow_reconnect := arg_reconnect a;
          cfg_queue := arg_allocation_quenue_group a;
          cfg_max_reconnect_attempts := arg_max_reconnect_attempts a;
          cfg_reconnecting_time_wait := arg_reconnecting_time_sleep a;
          cfg_client_strategy := arg_app_strategy a;
          cfg_num_of_queues :=
            if String.eqb (arg_app_strategy a) "sync"
            then Some (arg_num_of_queues a) else None |};
     tasks := arg_tasks a;
     interval_tasks := None;
     app_strategy := arg_app_strategy a;
     listen_topic_only_if_include := arg_listen_topic_only_if_include a;
     subscribe_topics_and_callbacks := arg_subscribe_topics_and_callbacks a;
     http_server :=
       if arg_web_server a then
         match arg_web_app a with
         | Some web_app => Some (HTTPServer_of_app web_app)
         | None => Some (HTTPServer_of_addr (arg_web_host a) (arg_web_port a))
         end
       else None |}.

(** How many times identity resolution calls [random.randint]. *)
Definition draws (client_id : option string) (w : world) : nat :=
  match client_id with
  | Some _ => 0
  | None => match environ w !! "HOSTNAME" with
            | Some _ => 1
            | None => 2
            end
  end.

Module MoreExamples.

(** A bus client that cannot connect. *)
Definition dead_bus : nats_config_t → topic_dict → result (list callable) :=
  λ _ _, Raise (CollaboratorError "no servers available for connection").

(** Declared handlers, an empty filter list. *)
Definition nothing_included : state :=
  MkState (Examples.app "asyncio" [] [] [] (Some []) None)
          (Examples.world_of Examples.declared ∅ []).

(** Declared handlers, a filter that holds the empty string. *)
Definition everything_included : state :=
  MkState (Examples.app "asyncio" [] [] [] (Some ["zzz"; ""]) None)
          (Examples.world_of Examples.declared ∅ []).

(** Declared handlers, the filter ["foo"]. *)
Definition only_foo : state :=
  MkState (Examples.app "asyncio" [] [] [] (Some ["foo"]) None)
          (Examples.world_of Examples.declared ∅ []).


(** asyncio, a blocking function among the interval tasks. *)
Definition bad_interval : state :=
  Examples.ready "asyncio" [Examples.ping] [(5, [Examples.ping; Examples.crunch])] [].

(** sync, a coroutine among the interval tasks. *)
Definition bad_interval_sync : state :=
  Examples.ready "sync" [Examples.crunch] [(5, [Examples.flush; Examples.ping])] [].

(** A strategy string that is neither of the two. *)
Definition misspelt : state :=
  MkState (Examples.app "async" [Examples.crunch] [Examples.ping]
             [(5, [Examples.crunch])] None None)
          (Examples.world_of ∅ ∅ []).

Definition explicit_args (client_id : string) (strategy : string) : init_args :=
  {| arg_host := "127.0.0.1";
     arg_port := 4222;
     arg_service_name := "svc";
     arg_client_id := Some client_id;
     arg_tasks := [];
     arg_reconnect := false;
     arg_max_reconnect_attempts := 60;
     arg_reconnecting_time_sleep := 2;
     arg_app_strategy := strategy;
     arg_num_of_queues := 4;
     arg_subscribe_topics_and_callbacks := 1%nat;
     arg_publish_topics := [];
     arg_allocation_quenue_group := "";
     arg_listen_topic_only_if_include := None;
     arg_web_server := true;
     arg_web_app := None;
     arg_web_host := Some "0.0.0.0";
     arg_web_port := Some 8080 |}.

(** sync, blocking functions from all three sources. *)
Definition all_blocking : state :=
  MkState (Examples.app "sync" [Examples.flush] [Examples.crunch]
             [(5, [Examples.crunch]); (60, [Examples.flush])] None None)
          (Examples.world_of ∅ ∅ []).

End MoreExamples.

(** ** Facts about Python strings *)

Lemma prefix_iff (p s : string) :
  String.prefix p s = true ↔ ∃ rest, s = p +:+ rest.
Proof.
  revert s. induction p as [|a p IH]; intros s; simpl.
  - destruct s; split; eauto.
  - destruct s as [|b s]; simpl.
    + split; [discriminate | intros [rest H]; discriminate].
    + destruct (ascii_dec a b) as [->|Hne].
      * rewrite IH. split; intros [rest H]; exists rest.
        -- by rewrite H.
        -- by injection H.
      * split; [discriminate | intros [rest H]; injection H; congruence].
Qed.

Lemma append_empty_l (s : string) : "" +:+ s = s.
Proof. reflexivity. Qed.

Lemma append_String (c : ascii) (s t : string) :
  String c s +:+ t = String c (s +:+ t).
Proof. reflexivity. Qed.

Lemma prefix_here (needle hay : string) :
  String.prefix needle hay = true → PyStr.is_substring_of needle hay.
Proof.
  intros Hp. apply prefix_iff in Hp as [rest Hp].
  exists "", rest. by rewrite append_empty_l.
Qed.

Lemma contains_iff (needle hay : string) :
  PyStr.contains needle hay = true ↔ PyStr.is_substring_of needle hay.
Proof.
  induction hay as [|c hay IH]; cbn [PyStr.contains].
  - destruct (String.prefix needle "") eqn:Hp.
    + split; [intros _; by apply prefix_here | done].
    + split; [discriminate|]. intros (before & after & H).
      destruct before as [|c before].
      * rewrite append_empty_l in H.
        assert (String.prefix needle "" = true) by (apply prefix_iff; eauto).
        congruence.
      * rewrite append_String in H. discriminate.
  - destruct (String.prefix needle (String c hay)) eqn:Hp.
    + split; [intros _; by apply prefix_here | done].
    + rewrite IH. split.
      * intros (before & after & ->). exists (String c before), after.
        by rewrite append_String.
      * intros (before & after & H). destruct before as [|c' before].
        -- rewrite append_empty_l in H.
           assert (String.prefix needle (String c hay) = true)
             by (apply prefix_iff; eauto).
           congruence.
        -- rewrite append_String in H. injection H as -> ->.
           by exists before, after.
Qed.

Lemma topic_included_iff (includes : list string) (topic : string) :
  topic_included includes topic = true
  ↔ ∃ topic_include, topic_include ∈ includes
                     ∧ PyStr.is_substring_of topic_include topic.
Proof.
  induction includes as [|f rest IH]; simpl.
  - split; [discriminate|]. intros (f & Hf & _). by apply elem_of_nil in Hf.
  - destruct (PyStr.contains f topic) eqn:Hc.
    + split; [|done]. intros _. exists f. split; [left|]. by apply contains_iff.
    + rewrite IH. split.
      * intros (g & Hg & Hsub). exists g. split; [by right|done].
      * intros (g & Hg & Hsub). apply elem_of_cons in Hg as [->|Hg].
        -- apply contains_iff in Hsub. congruence.
        -- eauto.
Qed.

(** ** The subscription dict *)

Lemma prune_lookup (includes keys : list string) (d : topic_dict) (topic : string) :
  prune includes keys d !! topic
  = if decide (topic ∈ keys ∧ topic_included includes topic = false)
    then None else d !! topic.
Proof.
  unfold prune. revert d. induction keys as [|k keys IH]; intros d; cbn [foldl].
  - destruct (decide _) as [[H _]|_]; [|done]. by apply elem_of_nil in H.
  - rewrite IH.
    destruct (decide (topic ∈ keys ∧ _)) as [[Hin Hf]|Hnot];
      destruct (decide (topic ∈ k :: keys ∧ _)) as [[Hin' Hf']|Hnot']; try done.
    + exfalso. apply Hnot'. split; [by right|done].
    + apply elem_of_cons in Hin' as [->|Hin']; [|exfalso; by apply Hnot].
      rewrite Hf'. by rewrite lookup_delete_eq.
    + destruct (topic_included includes k) eqn:Hk; [done|].
      rewrite lookup_delete_ne; [done|]. intros ->. apply Hnot'.
      split; [left|done].
Qed.

Lemma prune_keys_lookup (includes : list string) (d : topic_dict) (topic : string) :
  prune includes (map_to_list d).*1 d !! topic
  = if topic_included includes topic then d !! topic else None.
Proof.
  rewrite prune_lookup. destruct (topic_included includes topic) eqn:Hinc.
  - case_decide as H; [|done]. by destruct H.
  - case_decide as H; [done|]. destruct (d !! topic) as [h|] eqn:Hd; [|done].
    exfalso. apply H. split; [|done].
    apply list_elem_of_fmap. exists (topic, h). split; [done|].
    by apply elem_of_map_to_list.
Qed.

Lemma with_heap_insert_twice (l : loc) (d1 d2 : topic_dict) (s : state) :
  with_env (with_heap (insert l d2)) (with_env (with_heap (insert l d1)) s)
  = with_env (with_heap (insert l d2)) s.
Proof.
  destruct s as [a w]. unfold with_env, with_heap. simpl.
  by rewrite insert_insert_eq.
Qed.

Lemma deref_with_heap_insert (l : loc) (d : topic_dict) (w : world) :
  deref l (with_heap (insert l d) w) = d.
Proof. unfold deref. simpl. by rewrite lookup_insert_eq. Qed.

Lemma dict_del_run (l : loc) (key : string) (s : state) (d : topic_dict) (h : callable) :
  heap (env s) !! l = Some d →
  d !! key = Some h →
  in_world (dict_del l key) s
  = (Ok tt, with_env (with_heap (insert l (delete key d))) s).
Proof.
  intros Hd Hh. unfold in_world, dict_del, deref. rewrite Hd. simpl.
  by rewrite Hh.
Qed.

(** The deletion loop never raises [KeyError]: every key it deletes comes
    from the copy and is deleted at most once. *)
Lemma deletion_loop_run (l : loc) (includes : list string) :
  ∀ (keys : list string) (s : state) (d : topic_dict),
    heap (env s) !! l = Some d →
    NoDup keys →
    (∀ k, k ∈ keys → is_Some (d !! k)) →
    for_each (λ topic : string,
                let success := topic_included includes topic in
                if success then ret tt else in_world (dict_del l topic)) keys s
    = (Ok tt, with_env (with_heap (insert l (prune includes keys d))) s).
Proof.
  induction keys as [|k keys IH]; intros s d Hd Hnd Hin.
  - simpl. unfold ret. f_equal. destruct s as [a w]. destruct w.
    unfold with_env, with_heap. simpl in *. by rewrite insert_id.
  - apply NoDup_cons in Hnd as [Hk Hnd]. cbn [for_each]. unfold bind at 1.
    unfold prune. cbn [foldl]. fold (prune includes keys).
    destruct (topic_included includes k) eqn:Hinc.
    + unfold ret at 1. apply IH; [done|done|].
      intros k' Hk'. apply Hin. by right.
    + destruct (Hin k) as [h Hh]; [left|].
      rewrite (dict_del_run l k s d h Hd Hh).
      rewrite (IH _ (delete k d)).
      * by rewrite with_heap_insert_twice.
      * simpl. by rewrite lookup_insert_eq.
      * done.
      * intros k' Hk'. rewrite lookup_delete_ne; [|by intros ->].
        apply Hin. by right.
Qed.

Lemma _start_subscriptions_run (s : state) :
  _start_subscriptions s
  = (Ok (SUBSCRIPTIONS (self s)),
     with_env (with_heap (insert (SUBSCRIPTIONS (self s)) (subscriptions_after s))) s).
Proof.
  unfold _start_subscriptions, reraise_event_manager_error, subscriptions_after.
  unfold bind at 1. unfold get_self at 1. unfold bind at 1.
  unfold in_world at 1, dict_update, modify.
  fold (dynamic_bindings s). fold (static_registry s).
  set (merged := dynamic_bindings s ∪ static_registry s).
  set (L := SUBSCRIPTIONS (self s)).
  cbn [self]. unfold bind at 1.
  destruct (listen_topic_only_if_include (self s)) as [includes|].
  - unfold bind at 1. unfold in_world at 1, dict_copy_keys. cbn [env].
    rewrite deref_with_heap_insert.
    rewrite (deletion_loop_run L includes _ _ merged).
    + unfold ret. f_equal. destruct s as [a w]. unfold with_env, with_heap. simpl.
      by rewrite insert_insert_eq.
    + simpl. by rewrite lookup_insert_eq.
    + apply NoDup_fst_map_to_list.
    + intros k Hk. apply list_elem_of_fmap in Hk as ([k' h] & -> & Hk).
      apply elem_of_map_to_list in Hk. by exists h.
  - unfold ret. done.
Qed.

(** ** Frame properties of dispatch *)

Section Respects.

Context (R : state → state → Prop).
Hypothesis R_refl : ∀ s, R s s.
Hypothesis R_trans : ∀ s1 s2 s3, R s1 s2 → R s2 s3 → R s1 s3.

Lemma respects_ret {A} (a : A) : respects R (ret a).
Proof. intros s. apply R_refl. Qed.

Lemma respects_raise {A} (e : exn) : respects R (raise (A:=A) e).
Proof. intros s. apply R_refl. Qed.

Lemma respects_bind {A B} (m : M state A) (k : A → M state B) :
  respects R m → (∀ a, respects R (k a)) → respects R (bind m k).
Proof.
  intros Hm Hk s. unfold bind. specialize (Hm s).
  destruct (m s) as [[a|e] s1]; simpl in *; [|done].
  eapply R_trans; [exact Hm|]. apply Hk.
Qed.

Lemma respects_for_each {A} (body : A → M state unit) (xs : list A) :
  (∀ x, respects R (body x)) → respects R (for_each body xs).
Proof.
  intros Hbody. induction xs as [|x xs IH]; simpl.
  - apply respects_ret.
  - apply respects_bind; [apply Hbody | intros _; apply IH].
Qed.

Lemma respects_get_self : respects R get_self.
Proof. intros s. apply R_refl. Qed.

Lemma respects_all_tasks : respects R all_tasks.
Proof. intros s. apply R_refl. Qed.

Lemma respects_if {A} (b : bool) (m1 m2 : M state A) :
  respects R m1 → respects R m2 → respects R (if b then m1 else m2).
Proof. by destruct b. Qed.

End Respects.

Lemma same_objects_refl (s : state) : same_objects s s.
Proof. by split. Qed.

Lemma same_objects_trans (s1 s2 s3 : state) :
  same_objects s1 s2 → same_objects s2 s3 → same_objects s1 s3.
Proof. intros [H1 H2] [H3 H4]. split; congruence. Qed.

Lemma same_registries_refl (s : state) : same_registries s s.
Proof. by repeat split. Qed.

Lemma same_registries_trans (s1 s2 s3 : state) :
  same_registries s1 s2 → same_registries s2 s3 → same_registries s1 s3.
Proof.
  intros (?&?&?&?&?) (?&?&?&?&?). repeat split; congruence.
Qed.

Lemma same_objects_registries (s s' : state) :
  same_objects s s' → same_registries s s'.
Proof. intros [Hs Hh]. repeat split; congruence. Qed.

Lemma emit_same_objects (e : event) : respects same_objects (emit e).
Proof. intros s. by split. Qed.

Lemma create_task_same_objects (coro : callable) :
  respects same_objects (create_task coro).
Proof. intros s. by split. Qed.

Lemma read_interval_tasks_same_objects : respects same_objects read_interval_tasks.
Proof.
  intros s. unfold read_interval_tasks, bind, get_self.
  destruct (interval_tasks (self s)); by split.
Qed.

Lemma start_server_if_any_same_objects : respects same_objects start_server_if_any.
Proof.
  intros s. unfold start_server_if_any, bind, get_self.
  destruct (http_server (self s)); by split.
Qed.

Ltac frame_step :=
  first
    [ apply read_interval_tasks_same_objects
    | apply start_server_if_any_same_objects
    | apply (respects_bind same_objects same_objects_trans); [|intros ?]
    | apply (respects_for_each same_objects same_objects_refl same_objects_trans);
      intros ?
    | apply respects_if
    | apply (respects_ret same_objects same_objects_refl)
    | apply (respects_raise same_objects same_objects_refl)
    | apply (respects_get_self same_objects same_objects_refl)
    | apply (respects_all_tasks same_objects same_objects_refl)
    | apply emit_same_objects
    | apply create_task_same_objects ].

Lemma _start_tasks_same_objects : respects same_objects _start_tasks.
Proof.
  unfold _start_tasks, asyncio_interval_loop, sync_interval_loop,
    run_until_complete_gather, sleep, start_thread, start_server.
  repeat frame_step.
Qed.

(** ** Loops of [_start_tasks] in closed form *)

Lemma for_each_app {A} (body : A → M state unit) (xs ys : list A) (s : state) :
  for_each body (xs ++ ys) s = bind (for_each body xs) (λ _, for_each body ys) s.
Proof.
  revert s. induction xs as [|x xs IH]; intros s; simpl.
  - done.
  - unfold bind. destruct (body x s) as [[[]|e] s1]; [|done].
    rewrite IH. done.
Qed.

Lemma for_each_nested (body : callable → M state unit) (d : interval_dict) (s : state) :
  for_each (λ item : Z * list callable, for_each body (snd item)) d s
  = for_each body (concat (map snd d)) s.
Proof.
  revert s. induction d as [|item d IH]; intros s; simpl.
  - done.
  - rewrite for_each_app. unfold bind.
    destruct (for_each body item.2 s) as [[[]|e] s1]; [|done]. apply IH.
Qed.

(** A loop that checks each task before it hands it on stops at the first
    task that fails the check, with the tasks before it handed on. *)
Lemma guarded_loop
  (bad : callable → bool) (e : exn) (act : callable → M state unit)
  (step : callable → state → state) :
  (∀ c s, act c s = (Ok tt, step c s)) →
  ∀ (ts : list callable) (s : state),
    for_each (λ c, if bad c then raise e else act c) ts s
    = (if existsb bad ts then Raise e else Ok tt,
       foldl (λ s' c, step c s') s (ok_prefix bad ts)).
Proof.
  intros Hact. induction ts as [|t ts IH]; intros s; simpl.
  - done.
  - unfold bind. destruct (bad t) eqn:Hbad; simpl.
    + done.
    + rewrite Hact. apply IH.
Qed.

Lemma ok_prefix_all (bad : callable → bool) (ts : list callable) :
  existsb bad ts = false → ok_prefix bad ts = ts.
Proof.
  induction ts as [|t ts IH]; simpl; [done|].
  destruct (bad t); simpl; [discriminate|]. intros H. by rewrite IH.
Qed.

Lemma ok_prefix_app (bad : callable → bool) (xs ys : list callable) :
  ok_prefix bad (xs ++ ys)
  = if existsb bad xs then ok_prefix bad xs else xs ++ ok_prefix bad ys.
Proof.
  induction xs as [|x xs IH]; simpl; [done|].
  destruct (bad x); simpl; [done|]. rewrite IH. by destruct (existsb bad xs).
Qed.

Lemma ok_prefix_spec (bad : callable → bool) (ts : list callable) :
  existsb bad ts = true →
  ∃ offender rest,
    ts = ok_prefix bad ts ++ offender :: rest
    ∧ bad offender = true
    ∧ Forall (λ t, bad t = false) (ok_prefix bad ts).
Proof.
  induction ts as [|t ts IH]; simpl; [discriminate|].
  destruct (bad t) eqn:Hbad; simpl.
  - intros _. exists t, ts. by repeat split.
  - intros H. destruct (IH H) as (o & rest & Heq & Ho & Hall).
    exists o, rest. repeat split; [by f_equal | done | by constructor].
Qed.

Lemma with_events_nil (w : world) : with_events [] w = w.
Proof. destruct w. unfold with_events. simpl. by rewrite app_nil_r. Qed.

Lemma with_events_app (es1 es2 : list event) (w : world) :
  with_events es2 (with_events es1 w) = with_events (es1 ++ es2) w.
Proof. unfold with_events. simpl. by rewrite app_assoc. Qed.

Lemma with_event_events (e : event) (w : world) :
  with_event e w = with_events [e] w.
Proof. done. Qed.

Lemma with_env_compose (f g : world → world) (s : state) :
  with_env g (with_env f s) = with_env (λ w, g (f w)) s.
Proof. done. Qed.

Lemma create_all_app (xs ys : list callable) (w : world) :
  create_all (xs ++ ys) w = create_all ys (create_all xs w).
Proof. unfold create_all. by rewrite foldl_app. Qed.

Lemma create_all_cons (t : callable) (ts : list callable) (w : world) :
  create_all (t :: ts) w
  = create_all ts (with_event (CreateTask (AioTask (next_task_id w) t))
                     (with_new_task (AioTask (next_task_id w) t) w)).
Proof. done. Qed.

Lemma create_loop_state (ts : list callable) (s : state) :
  foldl (λ s' c, snd (create_task c s')) s ts = with_env (create_all ts) s.
Proof.
  revert s. induction ts as [|t ts IH]; intros s; simpl.
  - by destruct s.
  - rewrite IH. done.
Qed.

Lemma thread_loop_state (ts : list callable) (s : state) :
  foldl (λ s' c, snd (start_thread (Some c) s')) s ts
  = with_env (with_events (thread_starts ts)) s.
Proof.
  revert s. induction ts as [|t ts IH]; intros s; simpl.
  - destruct s as [a w]. unfold with_env. simpl. by rewrite with_events_nil.
  - rewrite IH. unfold start_thread, emit, modify. simpl.
    rewrite with_env_compose. destruct s as [a w]. unfold with_env. simpl.
    rewrite with_event_events, with_events_app. done.
Qed.

Lemma scheduled_app (tr1 tr2 : list event) :
  scheduled (tr1 ++ tr2) = scheduled tr1 ++ scheduled tr2.
Proof.
  induction tr1 as [|e tr1 IH]; simpl; [done|].
  destruct e as [| | |[task|]| |]; simpl; by rewrite ?IH.
Qed.

Lemma scheduled_thread_starts (ts : list callable) :
  scheduled (thread_starts ts) = ts.
Proof. induction ts as [|t ts IH]; simpl; [done|]. by rewrite IH. Qed.

Lemma scheduled_create_all (ts : list callable) (w : world) :
  scheduled (trace (create_all ts w)) = scheduled (trace w) ++ ts.
Proof.
  revert w. induction ts as [|t ts IH]; intros w.
  - simpl. by rewrite app_nil_r.
  - rewrite create_all_cons, IH. simpl.
    rewrite scheduled_app. simpl. by rewrite <- app_assoc.
Qed.

Lemma bind_ok {A B} (m : M state A) (k : A → M state B) (s s' : state) (a : A) :
  m s = (Ok a, s') → bind m k s = k a s'.
Proof. intros H. unfold bind. by rewrite H. Qed.

Lemma asyncio_loop_run (e : exn) (ts : list callable) (s : state) :
  for_each (λ coro : callable,
              if negb (iscoroutinefunction coro) then raise e
              else create_task coro) ts s
  = (if existsb not_coroutine ts then Raise e else Ok tt,
     with_env (create_all (ok_prefix not_coroutine ts)) s).
Proof.
  rewrite <- create_loop_state.
  by apply (guarded_loop not_coroutine e create_task (λ c s', snd (create_task c s'))).
Qed.

Lemma sync_loop_run (e : exn) (ts : list callable) (s : state) :
  for_each (λ task : callable,
              if iscoroutinefunction task then raise e
              else start_thread (Some task)) ts s
  = (if existsb iscoroutinefunction ts then Raise e else Ok tt,
     with_env (with_events (thread_starts (ok_prefix iscoroutinefunction ts))) s).
Proof.
  rewrite <- thread_loop_state.
  by apply (guarded_loop iscoroutinefunction e (λ c, start_thread (Some c))
              (λ c s', snd (start_thread (Some c) s'))).
Qed.

Lemma read_interval_tasks_run (s : state) (d : interval_dict) :
  interval_tasks (self s) = Some d → read_interval_tasks s = (Ok d, s).
Proof. intros H. unfold read_interval_tasks, bind, get_self. by rewrite H. Qed.

Lemma start_server_if_any_run (s : state) :
  start_server_if_any s = (Ok tt, with_env (with_events (server_events (self s))) s).
Proof.
  unfold start_server_if_any, bind, get_self, server_events.
  destruct (http_server (self s)); [done|].
  unfold ret. destruct s as [a w]. unfold with_env. simpl.
  by rewrite with_events_nil.
Qed.

(** [_start_tasks] under the asyncio strategy, every outcome. *)
Lemma asyncio_run (s : state) (d : interval_dict) :
  app_strategy (self s) = "asyncio" →
  interval_tasks (self s) = Some d →
  let s1 := with_env (create_all (ok_prefix not_coroutine
                                    (dispatch_order (tasks (self s)) d))) s in
  _start_tasks s
  = if existsb not_coroutine (tasks (self s)) then
      (Raise (InitializingTaskError
                "For asyncio app_strategy only coroutine tasks allowed"), s1)
    else if existsb not_coroutine (concat (map snd d)) then
      (Raise (InitializingIntevalTaskError
                "For asyncio app_strategy only coroutine interval tasks allowed"), s1)
    else
      (Ok tt,
       with_env (with_events (server_events (self s)
                              ++ [RunUntilComplete (loop_tasks (env s))])) s1).
Proof.
  intros Hstrat Hd s1. unfold _start_tasks.
  rewrite (bind_ok _ _ s s (self s)); [|done].
  rewrite Hstrat. cbn [String.eqb Ascii.eqb Bool.eqb].
  rewrite (bind_ok _ _ s s (loop_tasks (env s))); [|done].
  unfold bind at 1. rewrite asyncio_loop_run.
  subst s1. unfold dispatch_order. rewrite ok_prefix_app.
  destruct (existsb not_coroutine (tasks (self s))) eqn:Hone; [done|].
  rewrite (ok_prefix_all _ _ Hone).
  rewrite (bind_ok _ _ _ _ d
             (read_interval_tasks_run (with_env (create_all (tasks (self s))) s) d Hd)).
  unfold bind at 1. unfold asyncio_interval_loop.
  rewrite for_each_nested, asyncio_loop_run.
  assert (Hjoin : ∀ l, with_env (create_all l)
                         (with_env (create_all (tasks (self s))) s)
                       = with_env (create_all (tasks (self s) ++ l)) s).
  { intros l. destruct s as [a w]. unfold with_env. simpl.
    by rewrite create_all_app. }
  rewrite Hjoin.
  destruct (existsb not_coroutine (concat (map snd d))) eqn:Hint; [done|].
  rewrite (ok_prefix_all _ _ Hint).
  rewrite (bind_ok _ _ _ _ tt (start_server_if_any_run _)).
  unfold run_until_complete_gather, emit, modify.
  f_equal. destruct s as [a w]. unfold with_env. simpl. f_equal.
  rewrite with_event_events, with_events_app. done.
Qed.

(** [_start_tasks] under the sync strategy, every outcome. *)
Lemma sync_run (s : state) (d : interval_dict) :
  app_strategy (self s) = "sync" →
  interval_tasks (self s) = Some d →
  let s1 := with_env (with_events
                        (Sleep 1 :: thread_starts
                                      (ok_prefix iscoroutinefunction
                                         (dispatch_order (tasks (self s)) d)))) s in
  _start_tasks s
  = if existsb iscoroutinefunction (tasks (self s)) then
      (Raise (InitializingIntevalTaskError
                "For sync app_strategy coroutine task doesn't allowed"), s1)
    else if existsb iscoroutinefunction (concat (map snd d)) then
      (Raise (InitializingIntevalTaskError
                "For sync app_strategy coroutine interval_task doesn't allowed"), s1)
    else
      (Ok tt, with_env (with_events (server_events (self s))) s1).
Proof.
  intros Hstrat Hd s1. unfold _start_tasks.
  rewrite (bind_ok _ _ s s (self s)); [|done].
  rewrite Hstrat. cbn [String.eqb Ascii.eqb Bool.eqb].
  rewrite (bind_ok _ _ s (with_env (with_events [Sleep 1]) s) tt); [|done].
  unfold bind at 1. rewrite sync_loop_run.
  assert (Hjoin : ∀ es es', with_env (with_events es') (with_env (with_events es) s)
                            = with_env (with_events (es ++ es')) s).
  { intros es es'. destruct s as [a w]. unfold with_env. simpl.
    by rewrite with_events_app. }
  rewrite Hjoin.
  subst s1. unfold dispatch_order. rewrite ok_prefix_app.
  destruct (existsb iscoroutinefunction (tasks (self s))) eqn:Hone; [done|].
  rewrite (ok_prefix_all _ _ Hone).
  rewrite (bind_ok _ _ _ _ d
             (read_interval_tasks_run
                (with_env (with_events ([Sleep 1] ++ thread_starts (tasks (self s)))) s)
                d Hd)).
  unfold bind at 1. unfold sync_interval_loop.
  rewrite for_each_nested, sync_loop_run, Hjoin.
  unfold thread_starts. rewrite map_app. fold thread_starts.
  rewrite <- app_assoc.
  destruct (existsb iscoroutinefunction (concat (map snd d))) eqn:Hint; [done|].
  rewrite (ok_prefix_all _ _ Hint).
  rewrite start_server_if_any_run. done.
Qed.

(** Any other strategy string: nothing is dispatched. *)
Lemma other_strategy_run (s : state) :
  app_strategy (self s) ≠ "asyncio" →
  app_strategy (self s) ≠ "sync" →
  _start_tasks s = (Ok tt, s).
Proof.
  intros H1 H2. unfold _start_tasks.
  rewrite (bind_ok _ _ s s (self s)); [|done].
  apply String.eqb_neq in H1, H2. by rewrite H1, H2.
Qed.

(** ** Dispatch: what is scheduled, in which order, and what is awaited *)

Lemma existsb_false_Forall (bad : callable → bool) (ts : list callable) :
  Forall (λ t, bad t = false) ts → existsb bad ts = false.
Proof.
  induction 1 as [|t ts Ht _ IH]; simpl; [done|]. by rewrite Ht, IH.
Qed.

Lemma scheduled_with_events (es : list event) (w : world) :
  scheduled (trace (with_events es w)) = scheduled (trace w) ++ scheduled es.
Proof. unfold with_events. simpl. apply scheduled_app. Qed.

(** C1, as the code has it: a task whose mode does not fit the strategy
    makes [_start_tasks] raise a configuration error; at that point the
    tasks that precede the first offender in dispatch order (one-shot
    tasks, then interval tasks) have been handed to the scheduler, and
    neither the offender nor any later task has.  Nothing has been
    scheduled exactly when the offender comes first. *)
Theorem mismatch_aborts_after_earlier_tasks (s : state) (d : interval_dict) :
  app_strategy (self s) = "asyncio" ∨ app_strategy (self s) = "sync" →
  interval_tasks (self s) = Some d →
  existsb (mismatches (app_strategy (self s)))
          (dispatch_order (tasks (self s)) d) = true →
  ∃ e s' earlier offender later,
    dispatch_order (tasks (self s)) d = earlier ++ offender :: later
    ∧ Forall (λ t, mismatches (app_strategy (self s)) t = false) earlier
    ∧ mismatches (app_strategy (self s)) offender = true
    ∧ _start_tasks s = (Raise e, s')
    ∧ is_configuration_error e = true
    ∧ scheduled (trace (env s')) = scheduled (trace (env s)) ++ earlier.
Proof.
  intros [Hstrat|Hstrat] Hd Hbad; rewrite Hstrat in *.
  - change (mismatches "asyncio") with not_coroutine in *.
    destruct (ok_prefix_spec _ _ Hbad) as (offender & later & Hsplit & Hoff & Hall).
    pose proof (asyncio_run s d Hstrat Hd) as Hrun. cbv zeta in Hrun.
    unfold dispatch_order in Hbad. rewrite existsb_app in Hbad.
    set (earlier := ok_prefix not_coroutine (dispatch_order (tasks (self s)) d)) in *.
    destruct (existsb not_coroutine (tasks (self s))).
    + eexists _, _, earlier, offender, later.
      repeat split; [done|done|done|exact Hrun|done|].
      simpl. apply scheduled_create_all.
    + simpl in Hbad. rewrite Hbad in Hrun.
      eexists _, _, earlier, offender, later.
      repeat split; [done|done|done|exact Hrun|done|].
      simpl. apply scheduled_create_all.
  - change (mismatches "sync") with iscoroutinefunction in *.
    destruct (ok_prefix_spec _ _ Hbad) as (offender & later & Hsplit & Hoff & Hall).
    pose proof (sync_run s d Hstrat Hd) as Hrun. cbv zeta in Hrun.
    unfold dispatch_order in Hbad. rewrite existsb_app in Hbad.
    set (earlier := ok_prefix iscoroutinefunction
                      (dispatch_order (tasks (self s)) d)) in *.
    assert (Hsched : scheduled (trace (with_events (Sleep 1 :: thread_starts earlier)
                                         (env s)))
                     = scheduled (trace (env s)) ++ earlier).
    { rewrite scheduled_with_events. simpl. by rewrite scheduled_thread_starts. }
    destruct (existsb iscoroutinefunction (tasks (self s))).
    + eexists _, _, earlier, offender, later.
      repeat split; [done|done|done|exact Hrun|done|exact Hsched].
    + simpl in Hbad. rewrite Hbad in Hrun.
      eexists _, _, earlier, offender, later.
      repeat split; [done|done|done|exact Hrun|done|exact Hsched].
Qed.

Lemma mismatch_aborts_after_earlier_tasks_witness :
  ∃ e s' earlier offender later,
    dispatch_order (tasks (self Examples.late_offender)) []
    = earlier ++ offender :: later
    ∧ Forall (λ t, mismatches (app_strategy (self Examples.late_offender)) t = false)
             earlier
    ∧ mismatches (app_strategy (self Examples.late_offender)) offender = true
    ∧ _start_tasks Examples.late_offender = (Raise e, s')
    ∧ is_configuration_error e = true
    ∧ scheduled (trace (env s'))
      = scheduled (trace (env Examples.late_offender)) ++ earlier.
Proof.
  apply (mismatch_aborts_after_earlier_tasks Examples.late_offender []).
  - left. reflexivity.
  - reflexivity.
  - reflexivity.
Defined.

(** C1 as stated fails.  Under asyncio, with a coroutine task ahead of a
    blocking one, the configuration error is raised after the coroutine has
    been put on the event loop; under sync, with a blocking task ahead of a
    coroutine, it is raised after the thread of the blocking task has been
    started. *)
Lemma partial_scheduling_observed :
  (∃ e s',
     _start_tasks Examples.late_offender = (Raise e, s')
     ∧ is_configuration_error e = true
     ∧ scheduled (trace (env Examples.late_offender)) = []
     ∧ scheduled (trace (env s')) = [Examples.ping]
     ∧ loop_tasks (env s') = [AioTask 0 Examples.ping])
  ∧ (∃ e s',
       _start_tasks Examples.late_offender_sync = (Raise e, s')
       ∧ is_configuration_error e = true
       ∧ trace (env Examples.late_offender_sync) = []
       ∧ trace (env s') = [Sleep 1; StartThread (Some Examples.crunch)]).
Proof.
  split.
  - eexists _, _. split; [vm_compute; reflexivity|]. by repeat split.
  - eexists _, _. split; [vm_compute; reflexivity|]. by repeat split.
Qed.

(** C8: under the sync strategy with tasks that all fit it, [_start_tasks]
    returns normally and all it has done is, in this order: one
    [time.sleep(1)], one thread per one-shot task, one thread per interval
    task, and the start of the HTTP server when there is one.  It awaits
    nothing. *)
Theorem sync_dispatch_order (s : state) (d : interval_dict) :
  app_strategy (self s) = "sync" →
  interval_tasks (self s) = Some d →
  Forall (λ t, iscoroutinefunction t = false) (dispatch_order (tasks (self s)) d) →
  _start_tasks s
  = (Ok tt,
     with_env (with_events ([Sleep 1]
                            ++ thread_starts (tasks (self s))
                            ++ thread_starts (concat (map snd d))
                            ++ server_events (self s))) s).
Proof.
  intros Hstrat Hd Hok.
  pose proof (existsb_false_Forall _ _ Hok) as Hnone.
  rewrite (sync_run s d Hstrat Hd). cbv zeta.
  rewrite (ok_prefix_all _ _ Hnone).
  unfold dispatch_order in *. rewrite existsb_app in Hnone.
  apply orb_false_elim in Hnone as [-> ->].
  f_equal. destruct s as [a w]. unfold with_env. simpl. f_equal.
  rewrite with_events_app. f_equal.
  unfold thread_starts. rewrite map_app. simpl. by rewrite <- app_assoc.
Qed.

Lemma sync_dispatch_order_witness :
  _start_tasks Examples.threaded
  = (Ok tt,
     with_env (with_events [Sleep 1;
                            StartThread (Some Examples.crunch);
                            StartThread (Some Examples.flush)])
              Examples.threaded).
Proof.
  apply (sync_dispatch_order Examples.threaded [(5, [Examples.flush])]).
  - reflexivity.
  - reflexivity.
  - repeat constructor.
Defined.

(** C4 on the code: under asyncio the set handed to [asyncio.gather] is
    read from the loop before any task is created.  With one unit of the bus
    client on the loop and one coroutine task, the task is created, and the
    orchestrator then waits on the bus unit alone. *)
Theorem gather_misses_new_tasks :
  let created := AioTask 1 Examples.ping in
  let awaited := [AioTask 0 Examples.bus_reader] in
  ∃ s',
    _start_tasks Examples.with_bus_unit = (Ok tt, s')
    ∧ trace (env s') = [CreateTask created; RunUntilComplete awaited]
    ∧ created ∈ loop_tasks (env s')
    ∧ created ∉ awaited.
Proof.
  intros created awaited. eexists. split; [vm_compute; reflexivity|].
  split; [reflexivity|]. split.
  - cbn. right. left.
  - intros H. apply elem_of_cons in H as [H|H]; [discriminate|].
    by apply elem_of_nil in H.
Qed.

(** ** [_start]: the state it leaves behind *)

Lemma respects_weaken {A} (m : M state A) :
  respects same_objects m → respects same_registries m.
Proof. intros H s. apply same_objects_registries, H. Qed.

Lemma register_bus_units_heap (units : list callable) (w : world) :
  heap (register_bus_units units w) = heap w.
Proof.
  revert w. unfold register_bus_units.
  induction units as [|u units IH]; intros w; simpl; [done|]. by rewrite IH.
Qed.

Lemma subscriptions_after_lookup (s : state) (topic : string) :
  subscriptions_after s !! topic
  = if topic_passes (listen_topic_only_if_include (self s)) topic
    then (dynamic_bindings s ∪ static_registry s) !! topic
    else None.
Proof.
  unfold subscriptions_after, topic_passes.
  destruct (listen_topic_only_if_include (self s)) as [includes|]; [|done].
  apply prune_keys_lookup.
Qed.

Section Startup.

Variable connect : nats_config_t → topic_dict → result (list callable).

Lemma NATSClient__init___same_objects :
  respects same_objects (NATSClient__init__ connect).
Proof.
  intros s. unfold NATSClient__init__.
  destruct (connect _ _) as [units|e]; split; simpl; try done.
  by rewrite register_bus_units_heap.
Qed.

Lemma NATSClient__init___ok (s : state) :
  bus_connects connect →
  ∃ s', NATSClient__init__ connect s = (Ok tt, s') ∧ self s' = self s.
Proof.
  intros Hbus. unfold NATSClient__init__.
  destruct (Hbus (nats_config (self s))
              match cfg_listen_topics_callbacks (nats_config (self s)) with
              | Some l => deref l (env s)
              | None => ∅
              end) as [units ->].
  eexists. split; [reflexivity|done].
Qed.

Lemma _start_unfold (s : state) :
  _start connect s
  = (NATSClient__init__ connect;;;
     modify (with_self (λ a, set_tasks (tasks a ++ TASKS a) a));;;
     modify (with_self (λ a, set_interval_tasks (INTERVAL_TASKS a) a));;;
     _start_tasks)
      (with_self (λ a,
         set_nats_config
           (set_listen_topics_callbacks (SUBSCRIPTIONS (self s)) (nats_config a)) a)
         (with_env (with_heap (insert (SUBSCRIPTIONS (self s))
                                 (subscriptions_after s))) s)).
Proof.
  unfold _start. by rewrite (bind_ok _ _ _ _ _ (_start_subscriptions_run s)).
Qed.

Lemma _start_state (s : state) :
  let s' := snd (_start connect s) in
  heap (env s')
  = <[SUBSCRIPTIONS (self s) := subscriptions_after s]> (heap (env s))
  ∧ nats_config (self s')
    = set_listen_topics_callbacks (SUBSCRIPTIONS (self s)) (nats_config (self s))
  ∧ SUBSCRIPTIONS (self s') = SUBSCRIPTIONS (self s).
Proof.
  intros s'. subst s'. rewrite _start_unfold.
  set (s2 := with_self _ _).
  assert (Htail : respects same_registries
            (NATSClient__init__ connect;;;
             modify (with_self (λ a, set_tasks (tasks a ++ TASKS a) a));;;
             modify (with_self (λ a, set_interval_tasks (INTERVAL_TASKS a) a));;;
             _start_tasks)).
  { apply (respects_bind _ same_registries_trans);
      [apply respects_weaken, NATSClient__init___same_objects | intros _].
    apply (respects_bind _ same_registries_trans);
      [intros x; by repeat split | intros _].
    apply (respects_bind _ same_registries_trans);
      [intros x; by repeat split | intros _].
    apply respects_weaken, _start_tasks_same_objects. }
  destruct (Htail s2) as (Hheap & Hcfg & Hsub & _).
  rewrite Hheap, Hcfg, Hsub. done.
Qed.

Lemma final_subscriptions_after (s : state) :
  final_subscriptions (snd (_start connect s)) = Some (subscriptions_after s).
Proof.
  destruct (_start_state s) as (Hheap & Hcfg & Hsub).
  unfold final_subscriptions, deref. rewrite Hcfg, Hheap. simpl.
  by rewrite lookup_insert_eq.
Qed.

Lemma static_registry_after (s : state) :
  static_registry (snd (_start connect s)) = subscriptions_after s.
Proof.
  destruct (_start_state s) as (Hheap & Hcfg & Hsub).
  unfold static_registry, deref. rewrite Hsub, Hheap.
  by rewrite lookup_insert_eq.
Qed.

End Startup.

(** The test scenario: of "start", "foo" and "bar" the filter
    ["foo", "bar"] leaves "foo" and "bar" subscribed. *)
Example test_listen_topic_only_if_include :
  final_subscriptions (snd (_start Examples.quiet_bus Examples.filtered))
  = Some (<["foo" := Examples.on_foo]> (<["bar" := Examples.on_bar]> ∅)).
Proof. vm_compute. reflexivity. Qed.

(** C2: the dict handed to the bus client holds exactly the bindings of the
    merged dict (caller-supplied bindings laid over the declared ones) whose
    topic has some element of the filter as a substring; without a filter it
    is the merged dict itself. *)
Theorem include_filter_by_substring
  (connect : nats_config_t → topic_dict → result (list callable)) (s : state) :
  let merged := dynamic_bindings s ∪ static_registry s in
  let s' := snd (_start connect s) in
  match listen_topic_only_if_include (self s) with
  | Some includes =>
      ∃ final,
        final_subscriptions s' = Some final
        ∧ ∀ topic handler,
            final !! topic = Some handler
            ↔ merged !! topic = Some handler
              ∧ ∃ topic_include, topic_include ∈ includes
                                 ∧ PyStr.is_substring_of topic_include topic
  | None => final_subscriptions s' = Some merged
  end.
Proof.
  intros merged s'. subst s'.
  pose proof (final_subscriptions_after connect s) as Hfinal.
  pose proof (subscriptions_after_lookup s) as Hlook.
  destruct (listen_topic_only_if_include (self s)) as [includes|] eqn:Hfilter.
  - exists (subscriptions_after s). split; [done|].
    intros topic handler. rewrite Hlook. cbn [topic_passes].
    rewrite <- topic_included_iff.
    destruct (topic_included includes topic).
    + split; [intros H; by split | by intros [H _]].
    + split; [discriminate | intros [_ H]; discriminate].
  - rewrite Hfinal. f_equal. unfold subscriptions_after. by rewrite Hfilter.
Qed.

(** C5: for a topic that gets through the include-filter (every topic, when
    there is no filter), the dict handed to the bus client binds it to the
    caller-supplied handler whenever there is one, also when a handler was
    declared for it, and to the declared handler otherwise. *)
Theorem dynamic_binding_overrides_static
  (connect : nats_config_t → topic_dict → result (list callable))
  (s : state) (topic : string) :
  topic_passes (listen_topic_only_if_include (self s)) topic = true →
  ∃ final,
    final_subscriptions (snd (_start connect s)) = Some final
    ∧ (∀ dynamic_handler,
         dynamic_bindings s !! topic = Some dynamic_handler →
         final !! topic = Some dynamic_handler)
    ∧ (dynamic_bindings s !! topic = None →
       final !! topic = static_registry s !! topic).
Proof.
  intros Hpass. exists (subscriptions_after s).
  split; [apply final_subscriptions_after|].
  rewrite subscriptions_after_lookup, Hpass. split.
  - intros h Hh. apply lookup_union_Some_raw. by left.
  - intros Hnone. by apply lookup_union_r.
Qed.

Lemma dynamic_binding_overrides_static_witness :
  ∃ final,
    final_subscriptions (snd (_start Examples.quiet_bus Examples.colliding)) = Some final
    ∧ (∀ dynamic_handler,
         dynamic_bindings Examples.colliding !! "foo" = Some dynamic_handler →
         final !! "foo" = Some dynamic_handler)
    ∧ (dynamic_bindings Examples.colliding !! "foo" = None →
       final !! "foo" = static_registry Examples.colliding !! "foo").
Proof.
  apply (dynamic_binding_overrides_static Examples.quiet_bus Examples.colliding "foo").
  reflexivity.
Defined.

(** The colliding topic ends up with the caller-supplied handler, the other
    declared topics keep theirs. *)
Example colliding_bindings :
  final_subscriptions (snd (_start Examples.quiet_bus Examples.colliding))
  = Some (<["start" := Examples.on_start]>
            (<["foo" := Examples.on_foo_override]>
               (<["bar" := Examples.on_bar]> ∅))).
Proof. vm_compute. reflexivity. Qed.

(** C9: [_start] works on the [SUBSCRIPTIONS] dict itself.  The dict handed
    to the bus client is that very object, so afterwards the registry holds
    the merged and filtered bindings: a caller-supplied binding that got
    through the filter has been written into it, a declared topic that did
    not get through has been deleted from it, and in both cases the
    registry is no longer what was declared. *)
Theorem static_registry_mutated_in_place
  (connect : nats_config_t → topic_dict → result (list callable)) (s : state) :
  let s' := snd (_start connect s) in
  let passes := topic_passes (listen_topic_only_if_include (self s)) in
  cfg_listen_topics_callbacks (nats_config (self s')) = Some (SUBSCRIPTIONS (self s'))
  ∧ final_subscriptions s' = Some (static_registry s')
  ∧ (∀ topic handler,
       dynamic_bindings s !! topic = Some handler →
       static_registry s !! topic ≠ Some handler →
       passes topic = true →
       static_registry s' !! topic = Some handler
       ∧ static_registry s' ≠ static_registry s)
  ∧ (∀ topic,
       is_Some (static_registry s !! topic) →
       passes topic = false →
       static_registry s' !! topic = None
       ∧ static_registry s' ≠ static_registry s).
Proof.
  intros s' passes. subst s' passes.
  destruct (_start_state connect s) as (Hheap & Hcfg & Hsub).
  rewrite (final_subscriptions_after connect s).
  rewrite (static_registry_after connect s).
  split; [by rewrite Hcfg, Hsub|]. split; [done|]. split.
  - intros topic handler Hdyn Hstat Hpass.
    assert (subscriptions_after s !! topic = Some handler) as Hnew.
    { rewrite subscriptions_after_lookup, Hpass.
      apply lookup_union_Some_raw. by left. }
    split; [done|]. intros Heq. rewrite Heq in Hnew. done.
  - intros topic [h Hstat] Hpass.
    assert (subscriptions_after s !! topic = None) as Hnew.
    { by rewrite subscriptions_after_lookup, Hpass. }
    split; [done|]. intros Heq. rewrite Heq in Hnew. congruence.
Qed.

Lemma static_registry_mutated_in_place_witness :
  static_registry (snd (_start Examples.quiet_bus Examples.colliding)) !! "foo"
  = Some Examples.on_foo_override
  ∧ static_registry (snd (_start Examples.quiet_bus Examples.colliding))
    ≠ static_registry Examples.colliding
  ∧ static_registry (snd (_start Examples.quiet_bus Examples.filtered)) !! "start"
    = None
  ∧ static_registry (snd (_start Examples.quiet_bus Examples.filtered))
    ≠ static_registry Examples.filtered.
Proof.
  destruct (static_registry_mutated_in_place Examples.quiet_bus Examples.colliding)
    as (_ & _ & Hover & _).
  destruct (static_registry_mutated_in_place Examples.quiet_bus Examples.filtered)
    as (_ & _ & _ & Hdel).
  destruct (Hover "foo" Examples.on_foo_override) as [H1 H2];
    [reflexivity | discriminate | reflexivity |].
  destruct (Hdel "start") as [H3 H4]; [by eexists | reflexivity |].
  by repeat split.
Defined.

(** ** The task registries *)

Lemma _start_dispatch
  (connect : nats_config_t → topic_dict → result (list callable)) (s : state) :
  bus_connects connect →
  ∃ at_dispatch,
    _start connect s = _start_tasks at_dispatch
    ∧ tasks (self at_dispatch) = tasks (self s) ++ TASKS (self s)
    ∧ interval_tasks (self at_dispatch) = Some (INTERVAL_TASKS (self s))
    ∧ TASKS (self at_dispatch) = TASKS (self s)
    ∧ INTERVAL_TASKS (self at_dispatch) = INTERVAL_TASKS (self s).
Proof.
  intros Hbus. rewrite _start_unfold.
  set (s2 := with_self _ _).
  destruct (NATSClient__init___ok connect s2 Hbus) as (s3 & Hrun & Hself).
  rewrite (bind_ok _ _ _ _ _ Hrun).
  eexists. split; [reflexivity|]. simpl. rewrite Hself. done.
Qed.

(** C3, as the code has it: the one-shot tasks [_start_tasks] runs over are
    the caller-supplied tasks followed by the declared tasks, each list in
    its own order ([self.tasks + self.TASKS]). *)
Theorem one_shot_tasks_caller_supplied_first
  (connect : nats_config_t → topic_dict → result (list callable)) (s : state) :
  bus_connects connect →
  (∃ at_dispatch,
     _start connect s = _start_tasks at_dispatch
     ∧ tasks (self at_dispatch) = tasks (self s) ++ TASKS (self s))
  ∧ tasks (self (snd (_start connect s))) = tasks (self s) ++ TASKS (self s).
Proof.
  intros Hbus.
  destruct (_start_dispatch connect s Hbus) as (s4 & Hrun & Htasks & _).
  split; [by exists s4|].
  rewrite Hrun. destruct (_start_tasks_same_objects s4) as [-> _]. done.
Qed.

Lemma quiet_bus_connects : bus_connects Examples.quiet_bus.
Proof. intros cfg listen. by exists []. Qed.

Lemma one_shot_tasks_caller_supplied_first_witness :
  (∃ at_dispatch,
     _start Examples.quiet_bus Examples.two_sources = _start_tasks at_dispatch
     ∧ tasks (self at_dispatch)
       = tasks (self Examples.two_sources) ++ TASKS (self Examples.two_sources))
  ∧ tasks (self (snd (_start Examples.quiet_bus Examples.two_sources)))
    = tasks (self Examples.two_sources) ++ TASKS (self Examples.two_sources).
Proof.
  apply (one_shot_tasks_caller_supplied_first Examples.quiet_bus Examples.two_sources).
  apply quiet_bus_connects.
Defined.

(** C3 as stated fails: with [crunch] declared and [flush] supplied by the
    caller, dispatch runs over [flush; crunch], not over the declared task
    followed by the caller's. *)
Lemma declared_tasks_do_not_come_first :
  let s' := snd (_start Examples.quiet_bus Examples.two_sources) in
  TASKS (self Examples.two_sources) = [Examples.crunch]
  ∧ tasks (self Examples.two_sources) = [Examples.flush]
  ∧ tasks (self s') = [Examples.flush; Examples.crunch]
  ∧ tasks (self s')
    ≠ TASKS (self Examples.two_sources) ++ tasks (self Examples.two_sources)
  ∧ scheduled (trace (env s')) = [Examples.flush; Examples.crunch; Examples.crunch].
Proof. vm_compute. by repeat split. Qed.

(** C7: the interval dict [_start_tasks] runs over is the declared
    [INTERVAL_TASKS], nothing added and nothing removed, whatever one-shot
    tasks the caller supplied; and the constructor has no argument that
    reaches it. *)
Theorem interval_tasks_used_as_declared
  (connect : nats_config_t → topic_dict → result (list callable)) (s : state) :
  bus_connects connect →
  (∃ at_dispatch,
     _start connect s = _start_tasks at_dispatch
     ∧ interval_tasks (self at_dispatch) = Some (INTERVAL_TASKS (self s)))
  ∧ interval_tasks (self (snd (_start connect s))) = Some (INTERVAL_TASKS (self s))
  ∧ INTERVAL_TASKS (self (snd (_start connect s))) = INTERVAL_TASKS (self s)
  ∧ (∀ reg args w made w',
       __init__ reg args w = (Ok made, w') →
       INTERVAL_TASKS made = reg_INTERVAL_TASKS reg ∧ interval_tasks made = None).
Proof.
  intros Hbus.
  destruct (_start_dispatch connect s Hbus) as (s4 & Hrun & _ & Hint & _ & Hdecl).
  split; [by exists s4|].
  rewrite Hrun. destruct (_start_tasks_same_objects s4) as [-> _].
  split; [done|]. split; [done|].
  intros reg args w made w'. unfold __init__, reraise_event_manager_error, bind.
  destruct (resolve_client_id _ _ w) as [[cid|e] w1]; [|by destruct e].
  destruct (environ_set "CLIENT_ID" cid w1) as [[[]|e] w2]; [|by destruct e].
  unfold ret. intros [= <- _]. done.
Qed.

Lemma interval_tasks_used_as_declared_witness :
  interval_tasks (self (snd (_start Examples.quiet_bus Examples.two_sources)))
  = Some [(5, [Examples.crunch])].
Proof.
  destruct (interval_tasks_used_as_declared Examples.quiet_bus Examples.two_sources)
    as (_ & H & _).
  - apply quiet_bus_connects.
  - exact H.
Defined.

(** ** [start] *)

(** C10: in both branches of [start] the whole of [_start] runs in the
    caller, to its end, before anything else happens.  With an HTTP server
    [start] is [_start]; without one it is [_start] followed, if [_start]
    returned, by one [start_thread] call whose argument is the [None] that
    [_start] returned, so no part of [_start] runs in that thread; if
    [_start] raised, [start_thread] is not reached. *)
Theorem start_runs__start_in_caller
  (connect : nats_config_t → topic_dict → result (list callable)) (s : state) :
  (match http_server (self s) with
   | Some _ => start connect s = _start connect s
   | None =>
       start connect s
       = match _start connect s with
         | (Ok tt, s') => (Ok tt, with_env (with_events [StartThread None]) s')
         | (Raise e, s') => (Raise e, s')
         end
   end)
  ∧ ∃ after,
      trace (env (snd (start connect s)))
      = trace (env (snd (_start connect s))) ++ after
      ∧ (after = [] ∨ after = [StartThread None]).
Proof.
  assert (Hstart : start connect s
                   = (match http_server (self s) with
                      | Some _ => _start connect
                      | None =>
                          bind (_start connect)
                               (λ returned,
                                  start_thread match returned with tt => None end)
                      end) s) by reflexivity.
  rewrite Hstart. clear Hstart.
  destruct (http_server (self s)) as [server|].
  - split; [done|]. exists []. split; [by rewrite app_nil_r | by left].
  - unfold bind. destruct (_start connect s) as [[[]|e] s'].
    + split; [done|]. exists [StartThread None]. split; [done | by right].
    + split; [done|]. exists []. split; [by rewrite app_nil_r | by left].
Qed.

(** ** Identity resolution *)

Lemma randint_run (a b : Z) (w : world) :
  a ≤ b →
  ∃ n, randint a b w = (Ok n, with_rand_next (S (rand_next w)) w) ∧ a ≤ n ≤ b.
Proof.
  intros Hab. eexists. split; [reflexivity|].
  pose proof (Z.mod_pos_bound (rand_source w (rand_next w)) (b - a + 1)).
  lia.
Qed.

Lemma join3 (sep a b c : string) :
  PyStr.join sep [a; b; c] = a +:+ sep +:+ b +:+ sep +:+ c.
Proof. reflexivity. Qed.

(** C6: a client id given by the caller is returned as it is, with nothing
    read or drawn.  Without one the id is the service name, a host token and
    the decimal form of a draw from 1..1000000, joined by "__"; the host
    token is the value of HOSTNAME when the environment has one, and
    "non_docker_env_" followed by the decimal form of another draw from
    1..1000000 when it has not.  Either way an id is returned. *)
Theorem client_id_resolution (service_name : string) (w : world) :
  (∀ given, resolve_client_id service_name (Some given) w = (Ok given, w))
  ∧ (∃ host_token n w',
       resolve_client_id service_name None w
       = (Ok (service_name +:+ "__" +:+ host_token +:+ "__" +:+ PyStr.str n), w')
       ∧ 1 ≤ n ≤ 1000000
       ∧ match environ w !! "HOSTNAME" with
         | Some hostname => host_token = hostname
         | None => ∃ m, 1 ≤ m ≤ 1000000
                        ∧ host_token = "non_docker_env_" +:+ PyStr.str m
         end)
  ∧ (∀ client_id, ∃ resolved w',
       resolve_client_id service_name client_id w = (Ok resolved, w')).
Proof.
  assert (Hderived : ∃ host_token n w',
       resolve_client_id service_name None w
       = (Ok (service_name +:+ "__" +:+ host_token +:+ "__" +:+ PyStr.str n), w')
       ∧ 1 ≤ n ≤ 1000000
       ∧ match environ w !! "HOSTNAME" with
         | Some hostname => host_token = hostname
         | None => ∃ m, 1 ≤ m ≤ 1000000
                        ∧ host_token = "non_docker_env_" +:+ PyStr.str m
         end).
  { unfold resolve_client_id, _create_client_code_by_hostname.
    unfold bind at 1 2. unfold get at 1.
    destruct (environ w !! "HOSTNAME") as [hostname|] eqn:Henv.
    - unfold ret at 1.
      destruct (randint_run 1 1000000 w) as (n & Hn & Hrange); [lia|].
      unfold bind. rewrite Hn. unfold ret. rewrite join3.
      by exists hostname, n, (with_rand_next (S (rand_next w)) w).
    - destruct (randint_run 1 1000000 w) as (m & Hm & Hmrange); [lia|].
      unfold bind at 1. rewrite Hm. unfold ret at 1.
      destruct (randint_run 1 1000000 (with_rand_next (S (rand_next w)) w))
        as (n & Hn & Hrange); [lia|].
      unfold bind. rewrite Hn. unfold ret. rewrite join3.
      eexists _, n, _. split; [reflexivity|]. split; [done|]. by exists m. }
  split; [done|]. split; [exact Hderived|].
  intros [given|].
  - by exists given, w.
  - destruct Hderived as (host_token & n & w' & Hrun & _). eauto.
Qed.

(** With HOSTNAME set to "web-1" and a generator whose raw draws are all
    41, the service "svc" runs under "svc__web-1__42". *)
Example derived_client_id :
  fst (resolve_client_id "svc" None
         (with_environ (insert "HOSTNAME" "web-1") Examples.blank))
  = Ok "svc__web-1__42".
Proof. vm_compute. reflexivity. Qed.

(** Outside a container the host token is drawn as well. *)
Example derived_client_id_without_hostname :
  fst (resolve_client_id "svc" None Examples.blank)
  = Ok "svc__non_docker_env_42__42".
Proof. vm_compute. reflexivity. Qed.

(** The constructor publishes the id it resolved as CLIENT_ID and keeps
    [num_of_queues] because the strategy is sync. *)
Example constructed_app :
  ∃ made w',
    __init__ Examples.some_registries Examples.some_args Examples.blank = (Ok made, w')
    ∧ cfg_client_id (nats_config made) = "svc__non_docker_env_42__42"
    ∧ environ w' !! "CLIENT_ID" = Some "svc__non_docker_env_42__42"
    ∧ cfg_num_of_queues (nats_config made) = Some 1
    ∧ tasks made = [Examples.flush]
    ∧ http_server made = None.
Proof.
  eexists _, _. split; [vm_compute; reflexivity|]. by repeat split.
Qed.

(** * Further properties of the code *)

(** ** The include-filter at its edges *)

(** X1: an include-filter that is an empty list (not [None]) lets no topic
    through: the bus client is handed an empty dict and the [SUBSCRIPTIONS]
    registry is left empty, whatever was declared or supplied. *)
Theorem empty_filter_drops_everything
  (connect : nats_config_t → topic_dict → result (list callable)) (s : state) :
  listen_topic_only_if_include (self s) = Some [] →
  final_subscriptions (snd (_start connect s)) = Some ∅
  ∧ static_registry (snd (_start connect s)) = ∅.
Proof.
  intros Hfilter.
  rewrite final_subscriptions_after, static_registry_after.
  assert (subscriptions_after s = ∅) as ->; [|done].
  apply map_eq. intros topic.
  by rewrite subscriptions_after_lookup, Hfilter, lookup_empty.
Qed.

Lemma empty_filter_drops_everything_witness :
  final_subscriptions (snd (_start Examples.quiet_bus MoreExamples.nothing_included))
  = Some ∅
  ∧ static_registry (snd (_start Examples.quiet_bus MoreExamples.nothing_included))
    = ∅.
Proof.
  apply (empty_filter_drops_everything Examples.quiet_bus MoreExamples.nothing_included).
  reflexivity.
Defined.

(** X2: the empty string is a substring of every topic, so a filter that
    holds it removes nothing: the result is the merged dict, as if no filter
    had been given. *)
Theorem empty_string_filter_keeps_everything
  (connect : nats_config_t → topic_dict → result (list callable))
  (s : state) (includes : list string) :
  listen_topic_only_if_include (self s) = Some includes →
  "" ∈ includes →
  final_subscriptions (snd (_start connect s))
  = Some (dynamic_bindings s ∪ static_registry s).
Proof.
  intros Hfilter Hin. rewrite final_subscriptions_after. f_equal.
  apply map_eq. intros topic.
  rewrite subscriptions_after_lookup, Hfilter. cbn [topic_passes].
  assert (topic_included includes topic = true) as ->; [|done].
  apply topic_included_iff. exists "". split; [done|].
  exists "", topic. done.
Qed.

Lemma empty_string_filter_keeps_everything_witness :
  final_subscriptions (snd (_start Examples.quiet_bus MoreExamples.everything_included))
  = Some (dynamic_bindings MoreExamples.everything_included
          ∪ static_registry MoreExamples.everything_included).
Proof.
  apply (empty_string_filter_keeps_everything Examples.quiet_bus
           MoreExamples.everything_included ["zzz"; ""]).
  - reflexivity.
  - right. left.
Defined.

(** X3: the filter is monotone: of two applications with the same declared
    and supplied bindings, the one whose filter holds every element of the
    other's subscribes to every topic the other subscribes to, with the same
    handler. *)
Theorem wider_filter_keeps_more
  (connect : nats_config_t → topic_dict → result (list callable))
  (s1 s2 : state) (narrow wide : list string) :
  listen_topic_only_if_include (self s1) = Some narrow →
  listen_topic_only_if_include (self s2) = Some wide →
  static_registry s1 = static_registry s2 →
  dynamic_bindings s1 = dynamic_bindings s2 →
  (∀ topic_include, topic_include ∈ narrow → topic_include ∈ wide) →
  ∃ final1 final2,
    final_subscriptions (snd (_start connect s1)) = Some final1
    ∧ final_subscriptions (snd (_start connect s2)) = Some final2
    ∧ final1 ⊆ final2.
Proof.
  intros Hn Hw Hstat Hdyn Hsub.
  exists (subscriptions_after s1), (subscriptions_after s2).
  split; [apply final_subscriptions_after|].
  split; [apply final_subscriptions_after|].
  apply map_subseteq_spec. intros topic h.
  rewrite !subscriptions_after_lookup, Hn, Hw, Hstat, Hdyn. cbn [topic_passes].
  destruct (topic_included narrow topic) eqn:Hinc; [|discriminate].
  apply topic_included_iff in Hinc as (f & Hf & Hs).
  assert (topic_included wide topic = true) as ->; [|done].
  apply topic_included_iff. exists f. split; [by apply Hsub | done].
Qed.

Lemma wider_filter_keeps_more_witness :
  ∃ final1 final2,
    final_subscriptions (snd (_start Examples.quiet_bus MoreExamples.only_foo))
    = Some final1
    ∧ final_subscriptions (snd (_start Examples.quiet_bus Examples.filtered))
      = Some final2
    ∧ final1 ⊆ final2.
Proof.
  apply (wider_filter_keeps_more Examples.quiet_bus MoreExamples.only_foo
           Examples.filtered ["foo"] ["foo"; "bar"]); try reflexivity.
  intros f Hf. apply elem_of_cons in Hf as [->|Hf]; [left|].
  by apply elem_of_nil in Hf.
Defined.

(** X4: [_start] writes to one dict object only, the [SUBSCRIPTIONS]
    registry.  Every other dict is left as it was; in particular the dict
    the caller passed as [subscribe_topics_and_callbacks] is not filtered
    and not changed, unless it is the registry object itself. *)
Theorem only_the_registry_is_written
  (connect : nats_config_t → topic_dict → result (list callable)) (s : state) :
  (∀ l, l ≠ SUBSCRIPTIONS (self s) →
        heap (env (snd (_start connect s))) !! l = heap (env s) !! l)
  ∧ (subscribe_topics_and_callbacks (self s) ≠ SUBSCRIPTIONS (self s) →
     deref (subscribe_topics_and_callbacks (self s)) (env (snd (_start connect s)))
     = dynamic_bindings s).
Proof.
  destruct (_start_state connect s) as (Hheap & _ & _).
  assert (Hframe : ∀ l, l ≠ SUBSCRIPTIONS (self s) →
            heap (env (snd (_start connect s))) !! l = heap (env s) !! l).
  { intros l Hl. rewrite Hheap. by apply lookup_insert_ne. }
  split; [done|]. intros Hne.
  unfold dynamic_bindings, deref. by rewrite Hframe.
Qed.

Lemma only_the_registry_is_written_witness :
  deref 1%nat (env (snd (_start Examples.quiet_bus Examples.colliding)))
  = dynamic_bindings Examples.colliding.
Proof.
  destruct (only_the_registry_is_written Examples.quiet_bus Examples.colliding)
    as [_ H].
  apply H. discriminate.
Defined.

(** ** Whole runs of [_start] *)

Lemma NATSClient__init___run
  (connect : nats_config_t → topic_dict → result (list callable)) (s : state) :
  NATSClient__init__ connect (state_at_connect s)
  = match connect (config_at_connect s) (subscriptions_after s) with
    | Ok units =>
        (Ok tt,
         with_env (register_bus_units units)
           (with_env (with_event (NatsInit (config_at_connect s)
                                    (subscriptions_after s)))
              (state_at_connect s)))
    | Raise e =>
        (Raise e,
         with_env (with_event (NatsInit (config_at_connect s)
                                 (subscriptions_after s)))
           (state_at_connect s))
    end.
Proof.
  unfold NATSClient__init__.
  change (nats_config (self (state_at_connect s))) with (config_at_connect s).
  change (cfg_listen_topics_callbacks (config_at_connect s))
    with (Some (SUBSCRIPTIONS (self s))).
  cbv iota.
  change (env (state_at_connect s))
    with (with_heap (insert (SUBSCRIPTIONS (self s)) (subscriptions_after s)) (env s)).
  rewrite deref_with_heap_insert. done.
Qed.

Lemma _start_connected
  (connect : nats_config_t → topic_dict → result (list callable))
  (s : state) (units : list callable) :
  connect (config_at_connect s) (subscriptions_after s) = Ok units →
  _start connect s = _start_tasks (state_at_dispatch units s).
Proof.
  intros Hok. rewrite _start_unfold.
  change (with_self _ (with_env _ s)) with (state_at_connect s).
  unfold bind at 1. rewrite NATSClient__init___run, Hok. done.
Qed.

Lemma _start_refused
  (connect : nats_config_t → topic_dict → result (list callable))
  (s : state) (e : exn) :
  connect (config_at_connect s) (subscriptions_after s) = Raise e →
  _start connect s
  = (Raise e,
     with_env (with_event (NatsInit (config_at_connect s) (subscriptions_after s)))
       (state_at_connect s)).
Proof.
  intros Hno. rewrite _start_unfold.
  change (with_self _ (with_env _ s)) with (state_at_connect s).
  unfold bind at 1. rewrite NATSClient__init___run, Hno. done.
Qed.

Lemma register_bus_units_trace (units : list callable) (w : world) :
  trace (register_bus_units units w) = trace w.
Proof.
  revert w. unfold register_bus_units.
  induction units as [|u units IH]; intros w; simpl; [done|]. by rewrite IH.
Qed.

Lemma dispatch_only_refl (s : state) : dispatch_only s s.
Proof. exists []. by rewrite app_nil_r. Qed.

Lemma dispatch_only_trans (s1 s2 s3 : state) :
  dispatch_only s1 s2 → dispatch_only s2 s3 → dispatch_only s1 s3.
Proof.
  intros (es & H1 & P1) (es' & H2 & P2). exists (es ++ es'). split.
  - by rewrite H2, H1, app_assoc.
  - rewrite forallb_app. by rewrite P1, P2.
Qed.

Lemma emit_dispatch_only (e : event) :
  is_dispatch_event e = true → respects dispatch_only (emit e).
Proof. intros He s. exists [e]. split; [done|]. simpl. by rewrite He. Qed.

Lemma create_task_dispatch_only (coro : callable) :
  respects dispatch_only (create_task coro).
Proof. intros s. eexists [_]. split; [reflexivity|done]. Qed.

Lemma read_interval_tasks_dispatch_only : respects dispatch_only read_interval_tasks.
Proof.
  intros s. unfold read_interval_tasks, bind, get_self.
  destruct (interval_tasks (self s)); apply dispatch_only_refl.
Qed.

Lemma start_server_if_any_dispatch_only : respects dispatch_only start_server_if_any.
Proof.
  intros s. unfold start_server_if_any, bind, get_self.
  destruct (http_server (self s)).
  - by apply emit_dispatch_only.
  - apply dispatch_only_refl.
Qed.

Ltac dispatch_step :=
  first
    [ apply read_interval_tasks_dispatch_only
    | apply start_server_if_any_dispatch_only
    | apply (respects_bind dispatch_only dispatch_only_trans); [|intros ?]
    | apply (respects_for_each dispatch_only dispatch_only_refl dispatch_only_trans);
      intros ?
    | apply respects_if
    | apply (respects_ret dispatch_only dispatch_only_refl)
    | apply (respects_raise dispatch_only dispatch_only_refl)
    | apply (respects_get_self dispatch_only dispatch_only_refl)
    | apply (respects_all_tasks dispatch_only dispatch_only_refl)
    | apply emit_dispatch_only; reflexivity
    | apply create_task_dispatch_only ].

Lemma _start_tasks_dispatch_only : respects dispatch_only _start_tasks.
Proof.
  unfold _start_tasks, asyncio_interval_loop, sync_interval_loop,
    run_until_complete_gather, sleep, start_thread, start_server.
  repeat dispatch_step.
Qed.

(** X5: the bus client is constructed exactly once per [_start], before
    anything is dispatched, and with the finished dict: what [_start] adds
    to the trace begins with the constructor call, whose config names the
    [SUBSCRIPTIONS] object and whose handlers are the merged and filtered
    bindings, and no further constructor call follows. *)
Theorem bus_client_constructed_first_with_final_dict
  (connect : nats_config_t → topic_dict → result (list callable)) (s : state) :
  ∃ final rest,
    final_subscriptions (snd (_start connect s)) = Some final
    ∧ cfg_listen_topics_callbacks (config_at_connect s) = Some (SUBSCRIPTIONS (self s))
    ∧ trace (env (snd (_start connect s)))
      = trace (env s) ++ NatsInit (config_at_connect s) final :: rest
    ∧ forallb is_dispatch_event rest = true.
Proof.
  exists (subscriptions_after s).
  destruct (connect (config_at_connect s) (subscriptions_after s)) as [units|e] eqn:Hc.
  - rewrite (_start_connected connect s units Hc).
    destruct (_start_tasks_dispatch_only (state_at_dispatch units s))
      as (rest & Htrace & Hrest).
    exists rest. rewrite <- (_start_connected connect s units Hc).
    split; [apply final_subscriptions_after|]. split; [done|].
    rewrite (_start_connected connect s units Hc), Htrace.
    cbn [state_at_dispatch env]. rewrite register_bus_units_trace. simpl.
    by rewrite <- app_assoc.
  - exists []. split; [apply final_subscriptions_after|]. split; [done|].
    by rewrite (_start_refused connect s e Hc).
Qed.

(** X6: when the bus client's constructor raises, [_start] lets the
    exception through and stops there: nothing is scheduled, the pause of
    the sync strategy is not taken, and [self.tasks] and
    [self.interval_tasks] are as before.  The [SUBSCRIPTIONS] registry has
    been rewritten all the same. *)
Theorem bus_failure_stops_before_dispatch
  (connect : nats_config_t → topic_dict → result (list callable))
  (s : state) (e : exn) :
  connect (config_at_connect s) (subscriptions_after s) = Raise e →
  ∃ s',
    _start connect s = (Raise e, s')
    ∧ trace (env s')
      = trace (env s) ++ [NatsInit (config_at_connect s) (subscriptions_after s)]
    ∧ loop_tasks (env s') = loop_tasks (env s)
    ∧ tasks (self s') = tasks (self s)
    ∧ interval_tasks (self s') = interval_tasks (self s)
    ∧ static_registry s' = subscriptions_after s.
Proof.
  intros Hno. eexists. split; [by apply _start_refused|].
  repeat split. unfold static_registry. cbn [self env with_env state_at_connect].
  change (SUBSCRIPTIONS (set_nats_config (config_at_connect s) (self s)))
    with (SUBSCRIPTIONS (self s)).
  unfold deref. simpl. by rewrite lookup_insert_eq.
Qed.

Lemma bus_failure_stops_before_dispatch_witness :
  ∃ s',
    _start MoreExamples.dead_bus Examples.two_sources
    = (Raise (CollaboratorError "no servers available for connection"), s')
    ∧ trace (env s')
      = trace (env Examples.two_sources)
        ++ [NatsInit (config_at_connect Examples.two_sources)
              (subscriptions_after Examples.two_sources)]
    ∧ loop_tasks (env s') = loop_tasks (env Examples.two_sources)
    ∧ tasks (self s') = tasks (self Examples.two_sources)
    ∧ interval_tasks (self s') = interval_tasks (self Examples.two_sources)
    ∧ static_registry s' = subscriptions_after Examples.two_sources.
Proof.
  apply (bus_failure_stops_before_dispatch MoreExamples.dead_bus Examples.two_sources).
  reflexivity.
Defined.






(** X8: with a strategy string that is neither "asyncio" nor "sync" nothing
    is dispatched: [_start] connects the bus client and returns, no task is
    created, no thread started, no HTTP server started and nothing awaited,
    whatever the tasks are; the tasks are still merged into [self]. *)
Theorem unknown_strategy_dispatches_nothing
  (connect : nats_config_t → topic_dict → result (list callable))
  (s : state) (units : list callable) :
  app_strategy (self s) ≠ "asyncio" →
  app_strategy (self s) ≠ "sync" →
  connect (config_at_connect s) (subscriptions_after s) = Ok units →
  ∃ s',
    _start connect s = (Ok tt, s')
    ∧ trace (env s')
      = trace (env s) ++ [NatsInit (config_at_connect s) (subscriptions_after s)]
    ∧ tasks (self s') = tasks (self s) ++ TASKS (self s)
    ∧ interval_tasks (self s') = Some (INTERVAL_TASKS (self s)).
Proof.
  intros Ha Hs Hok. exists (state_at_dispatch units s).
  rewrite (_start_connected connect s units Hok).
  split; [by apply other_strategy_run|].
  cbn [state_at_dispatch env self]. rewrite register_bus_units_trace.
  by repeat split.
Qed.

Lemma unknown_strategy_dispatches_nothing_witness :
  ∃ s',
    _start Examples.quiet_bus MoreExamples.misspelt = (Ok tt, s')
    ∧ trace (env s')
      = trace (env MoreExamples.misspelt)
        ++ [NatsInit (config_at_connect MoreExamples.misspelt)
              (subscriptions_after MoreExamples.misspelt)]
    ∧ tasks (self s')
      = tasks (self MoreExamples.misspelt) ++ TASKS (self MoreExamples.misspelt)
    ∧ interval_tasks (self s') = Some (INTERVAL_TASKS (self MoreExamples.misspelt)).
Proof.
  apply (unknown_strategy_dispatches_nothing Examples.quiet_bus
           MoreExamples.misspelt []).
  - discriminate.
  - discriminate.
  - reflexivity.
Defined.

(** ** Starting twice *)

Lemma _start_self_cases
  (connect : nats_config_t → topic_dict → result (list callable)) (s : state) :
  self (snd (_start connect s)) = set_nats_config (config_at_connect s) (self s)
  ∨ self (snd (_start connect s)) = self_at_dispatch s.
Proof.
  destruct (connect (config_at_connect s) (subscriptions_after s)) as [units|e] eqn:Hc.
  - right. rewrite (_start_connected connect s units Hc).
    by destruct (_start_tasks_same_objects (state_at_dispatch units s)) as [-> _].
  - left. by rewrite (_start_refused connect s e Hc).
Qed.

(** X9: [_start] is not idempotent on the one-shot tasks: it stores the
    merged list back into [self.tasks], so a second call appends the
    declared tasks once more. *)
Theorem second_start_appends_declared_tasks_again
  (connect : nats_config_t → topic_dict → result (list callable)) (s : state) :
  bus_connects connect →
  tasks (self (snd (_start connect (snd (_start connect s)))))
  = tasks (self s) ++ TASKS (self s) ++ TASKS (self s).
Proof.
  intros Hbus.
  assert (Hself : ∀ s0, self (snd (_start connect s0)) = self_at_dispatch s0).
  { intros s0.
    destruct (Hbus (config_at_connect s0) (subscriptions_after s0)) as [units Hc].
    rewrite (_start_connected connect s0 units Hc).
    by destruct (_start_tasks_same_objects (state_at_dispatch units s0)) as [-> _]. }
  rewrite Hself. unfold self_at_dispatch at 1. cbn [tasks set_interval_tasks set_tasks].
  rewrite Hself. cbn. by rewrite <- app_assoc.
Qed.

Lemma second_start_appends_declared_tasks_again_witness :
  tasks (self (snd (_start Examples.quiet_bus
                      (snd (_start Examples.quiet_bus Examples.two_sources)))))
  = tasks (self Examples.two_sources)
    ++ TASKS (self Examples.two_sources) ++ TASKS (self Examples.two_sources).
Proof.
  apply (second_start_appends_declared_tasks_again Examples.quiet_bus
           Examples.two_sources).
  apply quiet_bus_connects.
Defined.

(** X10: on the subscriptions a second [_start] changes nothing: merging the
    supplied bindings into the registry again and filtering it again gives
    the dict the first call left, whether or not the bus client connected
    and whatever the tasks did. *)
Theorem second_start_keeps_subscriptions
  (connect : nats_config_t → topic_dict → result (list callable)) (s : state) :
  static_registry (snd (_start connect (snd (_start connect s))))
  = static_registry (snd (_start connect s))
  ∧ final_subscriptions (snd (_start connect (snd (_start connect s))))
    = final_subscriptions (snd (_start connect s)).
Proof.
  set (s1 := snd (_start connect s)).
  assert (Hsame : subscriptions_after s1 = subscriptions_after s).
  { destruct (_start_state connect s) as (Hheap & _ & Hsub). fold s1 in Hheap, Hsub.
    assert (Hfields : listen_topic_only_if_include (self s1)
                      = listen_topic_only_if_include (self s)
                      ∧ subscribe_topics_and_callbacks (self s1)
                        = subscribe_topics_and_callbacks (self s)).
    { subst s1. by destruct (_start_self_cases connect s) as [-> | ->]. }
    destruct Hfields as [Hfilter Hdyn].
    pose proof (static_registry_after connect s) as Hstat. fold s1 in Hstat.
    apply map_eq. intros topic.
    rewrite (subscriptions_after_lookup s1), Hfilter, Hstat.
    rewrite (subscriptions_after_lookup s).
    destruct (topic_passes _ topic) eqn:Hpass; [|done].
    rewrite lookup_union, (subscriptions_after_lookup s), Hpass.
    unfold dynamic_bindings at 1, deref. rewrite Hdyn, Hheap.
    destruct (decide (subscribe_topics_and_callbacks (self s) = SUBSCRIPTIONS (self s)))
      as [Halias|Hne].
    - rewrite Halias, lookup_insert_eq. cbn [default].
      rewrite (subscriptions_after_lookup s), Hpass.
      by destruct ((dynamic_bindings s ∪ static_registry s) !! topic).
    - rewrite lookup_insert_ne; [|done].
      fold (deref (subscribe_topics_and_callbacks (self s)) (env s)).
      fold (dynamic_bindings s). rewrite lookup_union.
      by destruct (dynamic_bindings s !! topic), (static_registry s !! topic). }
  subst s1. rewrite !final_subscriptions_after, !static_registry_after.
  by rewrite Hsame.
Qed.

(** ** Dispatch under asyncio, and the exceptions of both strategies *)

Lemma create_all_closed (ts : list callable) (w : world) :
  create_all ts w
  = MkWorld (environ w) (rand_source w) (rand_next w) (heap w)
            (loop_tasks w ++ new_tasks (next_task_id w) ts)
            (next_task_id w + length ts)%nat
            (trace w ++ map CreateTask (new_tasks (next_task_id w) ts)).
Proof.
  revert w. induction ts as [|t ts IH]; intros w.
  - destruct w. unfold create_all. simpl. by rewrite !app_nil_r, Nat.add_0_r.
  - rewrite create_all_cons, IH. simpl. rewrite <- !app_assoc. simpl.
    f_equal. lia.
Qed.









(** X13: which exception asyncio dispatch raises.  A one-shot task that is
    not a coroutine function gives [InitializingTaskError]; when the
    one-shot tasks are all coroutine functions and an interval task is not,
    the exception is [InitializingIntevalTaskError].  In both cases the
    trace has grown by the tasks created before the offender and by nothing
    else: the HTTP server is not started and the loop is not run. *)
Theorem asyncio_dispatch_errors (s : state) (d : interval_dict) :
  app_strategy (self s) = "asyncio" →
  interval_tasks (self s) = Some d →
  existsb not_coroutine (dispatch_order (tasks (self s)) d) = true →
  ∃ s',
    _start_tasks s
    = (Raise (if existsb not_coroutine (tasks (self s))
              then InitializingTaskError
                     "For asyncio app_strategy only coroutine tasks allowed"
              else InitializingIntevalTaskError
                     "For asyncio app_strategy only coroutine interval tasks allowed"),
       s')
    ∧ trace (env s')
      = trace (env s)
        ++ map CreateTask
             (new_tasks (next_task_id (env s))
                (ok_prefix not_coroutine (dispatch_order (tasks (self s)) d)))
    ∧ self s' = self s.
Proof.
  intros Hstrat Hd Hbad.
  rewrite (asyncio_run s d Hstrat Hd). cbv zeta.
  unfold dispatch_order in Hbad. rewrite existsb_app in Hbad.
  destruct (existsb not_coroutine (tasks (self s))).
  - eexists. split; [reflexivity|]. cbn [env with_env self].
    by rewrite create_all_closed.
  - simpl in Hbad. rewrite Hbad.
    eexists. split; [reflexivity|]. cbn [env with_env self].
    by rewrite create_all_closed.
Qed.

Lemma asyncio_dispatch_errors_witness :
  ∃ s',
    _start_tasks MoreExamples.bad_interval
    = (Raise (InitializingIntevalTaskError
                "For asyncio app_strategy only coroutine interval tasks allowed"),
       s')
    ∧ trace (env s')
      = [] ++ map CreateTask [AioTask 0 Examples.ping; AioTask 1 Examples.ping]
    ∧ self s' = self MoreExamples.bad_interval.
Proof.
  apply (asyncio_dispatch_errors MoreExamples.bad_interval
           [(5, [Examples.ping; Examples.crunch])]); reflexivity.
Defined.

(** X14: which exception sync dispatch raises.  A coroutine function among
    the tasks gives [InitializingIntevalTaskError] whether it is a one-shot
    task or an interval task; only the message tells the two apart.  The
    pause has been taken and the threads of the tasks before the offender
    have been started; the HTTP server is not started. *)
Theorem sync_dispatch_errors (s : state) (d : interval_dict) :
  app_strategy (self s) = "sync" →
  interval_tasks (self s) = Some d →
  existsb iscoroutinefunction (dispatch_order (tasks (self s)) d) = true →
  ∃ s',
    _start_tasks s
    = (Raise (InitializingIntevalTaskError
                (if existsb iscoroutinefunction (tasks (self s))
                 then "For sync app_strategy coroutine task doesn't allowed"
                 else "For sync app_strategy coroutine interval_task doesn't allowed")),
       s')
    ∧ trace (env s')
      = trace (env s)
        ++ Sleep 1
           :: thread_starts
                (ok_prefix iscoroutinefunction (dispatch_order (tasks (self s)) d))
    ∧ loop_tasks (env s') = loop_tasks (env s)
    ∧ self s' = self s.
Proof.
  intros Hstrat Hd Hbad.
  rewrite (sync_run s d Hstrat Hd). cbv zeta.
  unfold dispatch_order in Hbad. rewrite existsb_app in Hbad.
  destruct (existsb iscoroutinefunction (tasks (self s))).
  - eexists. split; [reflexivity|]. done.
  - simpl in Hbad. rewrite Hbad. eexists. split; [reflexivity|]. done.
Qed.

Lemma sync_dispatch_errors_witness :
  ∃ s',
    _start_tasks MoreExamples.bad_interval_sync
    = (Raise (InitializingIntevalTaskError
                "For sync app_strategy coroutine interval_task doesn't allowed"),
       s')
    ∧ trace (env s')
      = [] ++ [Sleep 1; StartThread (Some Examples.crunch);
               StartThread (Some Examples.flush)]
    ∧ loop_tasks (env s') = loop_tasks (env MoreExamples.bad_interval_sync)
    ∧ self s' = self MoreExamples.bad_interval_sync.
Proof.
  apply (sync_dispatch_errors MoreExamples.bad_interval_sync
           [(5, [Examples.flush; Examples.ping])]); reflexivity.
Defined.

(** ** [start] from end to end under sync *)

(** X15: a whole [start] under the sync strategy with a bus client that
    connects and blocking functions only.  It returns normally, and what it
    has done is, in this order: construct the bus client with the finished
    dict, pause one second, start one thread per caller-supplied one-shot
    task, one per declared one-shot task and one per declared interval
    task, then start the HTTP server if there is one and otherwise call
    [start_thread] on [None]. *)
Theorem sync_start_end_to_end
  (connect : nats_config_t → topic_dict → result (list callable))
  (s : state) (units : list callable) :
  app_strategy (self s) = "sync" →
  connect (config_at_connect s) (subscriptions_after s) = Ok units →
  Forall (λ t, iscoroutinefunction t = false)
         (dispatch_order (tasks (self s) ++ TASKS (self s)) (INTERVAL_TASKS (self s))) →
  ∃ s',
    start connect s = (Ok tt, s')
    ∧ trace (env s')
      = trace (env s)
        ++ [NatsInit (config_at_connect s) (subscriptions_after s); Sleep 1]
        ++ thread_starts (tasks (self s))
        ++ thread_starts (TASKS (self s))
        ++ thread_starts (concat (map snd (INTERVAL_TASKS (self s))))
        ++ closing_events (self s).
Proof.
  intros Hstrat Hok Hfit.
  set (sd := state_at_dispatch units s).
  assert (Hd : interval_tasks (self sd) = Some (INTERVAL_TASKS (self s))) by done.
  pose proof (existsb_false_Forall _ _ Hfit) as Hnone.
  assert (Hrun : ∃ s1,
            _start connect s = (Ok tt, s1)
            ∧ trace (env s1)
              = trace (env s)
                ++ [NatsInit (config_at_connect s) (subscriptions_after s); Sleep 1]
                ++ thread_starts (tasks (self s))
                ++ thread_starts (TASKS (self s))
                ++ thread_starts (concat (map snd (INTERVAL_TASKS (self s))))
                ++ server_events (self s)).
  { rewrite (_start_connected connect s units Hok).
    fold sd. rewrite (sync_run sd _ Hstrat Hd). cbv zeta.
    change (tasks (self sd)) with (tasks (self s) ++ TASKS (self s)).
    rewrite (ok_prefix_all _ _ Hnone).
    unfold dispatch_order in Hnone. rewrite existsb_app in Hnone.
    apply orb_false_elim in Hnone as [-> ->].
    eexists. split; [reflexivity|].
    cbn [env with_env with_events trace sd state_at_dispatch].
    rewrite register_bus_units_trace. cbn [trace with_event].
    unfold dispatch_order, thread_starts. rewrite !map_app.
    change (trace (env (state_at_connect s))) with (trace (env s)).
    change (server_events (self (state_at_dispatch units s)))
      with (server_events (self s)).
    repeat (rewrite <- ?app_assoc; cbn [app]). done. }
  destruct Hrun as (s1 & Hrun & Htrace).
  assert (Hstart : start connect s
                   = (match http_server (self s) with
                      | Some _ => _start connect
                      | None =>
                          bind (_start connect)
                               (λ returned,
                                  start_thread match returned with tt => None end)
                      end) s) by reflexivity.
  rewrite Hstart. clear Hstart.
  unfold closing_events. unfold server_events in Htrace.
  destruct (http_server (self s)) as [server|].
  - exists s1. by split.
  - rewrite (bind_ok _ _ _ _ _ Hrun).
    eexists. split; [reflexivity|].
    cbn [env with_env with_event trace start_thread emit modify snd].
    rewrite Htrace. repeat (rewrite <- ?app_assoc; cbn [app]).
    done.
Qed.

Lemma sync_start_end_to_end_witness :
  ∃ s',
    start Examples.quiet_bus MoreExamples.all_blocking = (Ok tt, s')
    ∧ trace (env s')
      = []
        ++ [NatsInit (config_at_connect MoreExamples.all_blocking)
              (subscriptions_after MoreExamples.all_blocking); Sleep 1]
        ++ thread_starts [Examples.flush]
        ++ thread_starts [Examples.crunch]
        ++ thread_starts [Examples.crunch; Examples.flush]
        ++ [StartThread None].
Proof.
  apply (sync_start_end_to_end Examples.quiet_bus MoreExamples.all_blocking []).
  - reflexivity.
  - reflexivity.
  - repeat constructor.
Defined.

(** ** The constructor *)

Lemma with_rand_next_same (w : world) : with_rand_next (rand_next w) w = w.
Proof. by destruct w. Qed.

Lemma resolve_client_id_run (service_name : string) (client_id : option string)
  (w : world) :
  ∃ resolved,
    resolve_client_id service_name client_id w
    = (Ok resolved, with_rand_next (rand_next w + draws client_id w) w).
Proof.
  unfold resolve_client_id, draws. destruct client_id as [given|].
  - exists given. unfold ret. by rewrite Nat.add_0_r, with_rand_next_same.
  - unfold _create_client_code_by_hostname.
    unfold bind at 1 2. unfold get at 1.
    destruct (environ w !! "HOSTNAME") as [hostname|].
    + eexists. unfold ret at 1. unfold bind, randint, ret.
      cbn [rand_next with_rand_next]. by rewrite Nat.add_1_r.
    + eexists. unfold bind, randint, ret. cbn [rand_next with_rand_next].
      unfold with_rand_next. cbn. do 2 f_equal. f_equal. lia.
Qed.

Lemma __init___run (reg : registries) (a : init_args) (w : world) (resolved : string)
  (w1 : world) :
  resolve_client_id (arg_service_name a) (arg_client_id a) w = (Ok resolved, w1) →
  __init__ reg a w
  = if PyStr.contains NUL resolved
    then (Raise (ValueError "embedded null byte"), w1)
    else (Ok (constructed reg a resolved),
          with_environ (insert "CLIENT_ID" resolved) w1).
Proof.
  intros Hres. unfold __init__, reraise_event_manager_error.
  unfold bind at 1. rewrite Hres. unfold bind at 1. unfold environ_set.
  change (String "000"%char EmptyString) with NUL.
  by destruct (PyStr.contains NUL resolved).
Qed.

(** X16: identity resolution reads the environment and draws from the
    random source, and does nothing else: the environment, the dicts, the
    event loop and the trace are as before.  It draws nothing when the
    caller gave a client id, once when HOSTNAME is set and twice when it is
    not. *)
Theorem resolution_only_draws (service_name : string) (client_id : option string)
  (w : world) :
  let w' := snd (resolve_client_id service_name client_id w) in
  environ w' = environ w
  ∧ heap w' = heap w
  ∧ loop_tasks w' = loop_tasks w
  ∧ trace w' = trace w
  ∧ rand_next w'
    = (rand_next w
       + match client_id with
         | Some _ => 0
         | None => if decide (is_Some (environ w !! "HOSTNAME")) then 1 else 2
         end)%nat.
Proof.
  intros w'. subst w'.
  destruct (resolve_client_id_run service_name client_id w) as [resolved ->].
  repeat split. cbn. unfold draws. destruct client_id; [done|].
  destruct (environ w !! "HOSTNAME") eqn:H; case_decide as Hd; try done.
  exfalso. apply Hd. by eexists.
Qed.

(** X17: a constructor call that returns has published the client id it
    resolved: CLIENT_ID in the environment is the [client_id] of the bus
    config and no other variable has changed.  The bus config has no
    handler dict yet, carries [num_of_queues] only under the sync strategy,
    and an HTTP server object exists exactly when [web_server] is set. *)
Theorem constructor_publishes_client_id
  (reg : registries) (a : init_args) (w : world) (made : App) (w' : world) :
  __init__ reg a w = (Ok made, w') →
  environ w' = <["CLIENT_ID" := cfg_client_id (nats_config made)]> (environ w)
  ∧ heap w' = heap w
  ∧ trace w' = trace w
  ∧ cfg_listen_topics_callbacks (nats_config made) = None
  ∧ cfg_client_strategy (nats_config made) = app_strategy made
  ∧ (is_Some (cfg_num_of_queues (nats_config made)) ↔ app_strategy made = "sync")
  ∧ (is_Some (http_server made) ↔ arg_web_server a = true)
  ∧ tasks made = arg_tasks a
  ∧ interval_tasks made = None.
Proof.
  destruct (resolve_client_id_run (arg_service_name a) (arg_client_id a) w)
    as [resolved Hres].
  rewrite (__init___run reg a w resolved _ Hres).
  destruct (PyStr.contains NUL resolved); [discriminate|].
  intros [= <- <-]. repeat split; try done.
  - cbn. destruct (String.eqb_spec (arg_app_strategy a) "sync"); [done|].
    intros [x Hx]. discriminate.
  - cbn. intros ->. by eexists.
  - cbn. destruct (arg_web_server a); [done|]. intros [x Hx]. discriminate.
  - cbn. intros ->. destruct (arg_web_app a); by eexists.
Qed.

Lemma constructor_publishes_client_id_witness :
  ∃ made w',
    __init__ Examples.some_registries Examples.some_args Examples.blank = (Ok made, w')
    ∧ environ w'
      = <["CLIENT_ID" := cfg_client_id (nats_config made)]> (environ Examples.blank)
    ∧ cfg_client_id (nats_config made) = "svc__non_docker_env_42__42".
Proof.
  eexists _, _. split; [vm_compute; reflexivity|].
  split; [|reflexivity].
  eapply (constructor_publishes_client_id Examples.some_registries Examples.some_args
            Examples.blank).
  vm_compute. reflexivity.
Defined.

(** X18: with a client id given by the caller the constructor draws
    nothing, and whether it returns depends on the id alone: an id that
    holds a NUL character is refused by the environment with [ValueError],
    the world being left as it was; any other id is taken as it is,
    published as CLIENT_ID and put into the bus config. *)
Theorem explicit_client_id_construction
  (reg : registries) (a : init_args) (w : world) (given : string) :
  arg_client_id a = Some given →
  (PyStr.is_substring_of NUL given →
   __init__ reg a w = (Raise (ValueError "embedded null byte"), w))
  ∧ (¬ PyStr.is_substring_of NUL given →
     ∃ made,
       __init__ reg a w = (Ok made, with_environ (insert "CLIENT_ID" given) w)
       ∧ cfg_client_id (nats_config made) = given).
Proof.
  intros Hgiven.
  assert (Hres : resolve_client_id (arg_service_name a) (arg_client_id a) w
                 = (Ok given, w)) by (by rewrite Hgiven).
  rewrite (__init___run reg a w given w Hres).
  split.
  - intros Hnul. apply contains_iff in Hnul. by rewrite Hnul.
  - intros Hclean. destruct (PyStr.contains NUL given) eqn:Hc.
    + exfalso. apply Hclean. by apply contains_iff.
    + by eexists.
Qed.

Lemma explicit_client_id_construction_witness :
  __init__ Examples.some_registries
    (MoreExamples.explicit_args (String "a" (String "000" (String "b" ""))) "sync")
    Examples.blank
  = (Raise (ValueError "embedded null byte"), Examples.blank)
  ∧ ∃ made,
      __init__ Examples.some_registries (MoreExamples.explicit_args "svc-1" "sync")
        Examples.blank
      = (Ok made, with_environ (insert "CLIENT_ID" "svc-1") Examples.blank)
      ∧ cfg_client_id (nats_config made) = "svc-1".
Proof.
  split.
  - apply (explicit_client_id_construction Examples.some_registries
             (MoreExamples.explicit_args (String "a" (String "000" (String "b" "")))
                "sync")
             Examples.blank (String "a" (String "000" (String "b" "")))).
    + reflexivity.
    + exists "a", "b". reflexivity.
  - apply (explicit_client_id_construction Examples.some_registries
             (MoreExamples.explicit_args "svc-1" "sync") Examples.blank "svc-1").
    + reflexivity.
    + intros Hnul. apply contains_iff in Hnul. discriminate.
Defined.

(** ** What a whole start under asyncio waits for *)



